(** * tinyproxy statistics module (src/stats.c)

    A shallow embedding of [update_stats] and [showstats] and of the
    data they work on, with the properties of the counter store and of
    the statistics page selection proved about it. *)

From Stdlib Require Import ZArith List Bool Lia.
From Stdlib Require Import Strings.String Strings.Ascii.
From Stdlib Require Import Numbers.DecimalString Numbers.DecimalN.
From Stdlib Require Import Numbers.DecimalFacts Sorting.Permutation.
Import ListNotations.

Local Open Scope Z_scope.

(** ** What stats.c takes from the headers it includes

    [unsigned long int] has an implementation-defined width; the
    enumerators of [status_t] come from stats.h, [MAXBUFFSIZE] from
    common.h, [PACKAGE] and [VERSION] from config.h.  None of them is
    fixed by stats.c, so they are parameters of the embedding. *)

Record headers : Type := {
  ULONG_BITS   : positive;
  STAT_BADCONN : Z;
  STAT_OPEN    : Z;
  STAT_CLOSE   : Z;
  STAT_REFUSE  : Z;
  STAT_DENIED  : Z;
  MAXBUFFSIZE  : Z;
  PACKAGE      : string;
  VERSION      : string
}.

(** The five [case] labels of the [switch] in [update_stats]. *)
Definition status_labels (h : headers) : list Z :=
  [STAT_BADCONN h; STAT_OPEN h; STAT_CLOSE h; STAT_REFUSE h; STAT_DENIED h].

(** C rejects a [switch] with two equal [case] labels, and the
    enumerators of one [enum] declared without initialisers differ. *)
Definition labels_distinct (h : headers) : Prop := NoDup (status_labels h).

(** An LP64 build: 64-bit [unsigned long], enumerators numbered from 0. *)
Definition lp64 : headers := {|
  ULONG_BITS   := 64;
  STAT_BADCONN := 0;
  STAT_OPEN    := 1;
  STAT_CLOSE   := 2;
  STAT_REFUSE  := 3;
  STAT_DENIED  := 4;
  MAXBUFFSIZE  := 98304;
  PACKAGE      := "tinyproxy";
  VERSION      := "1.11.0"
|}.

(** An ILP32 build: the same with a 32-bit [unsigned long]. *)
Definition ilp32 : headers := {|
  ULONG_BITS   := 32;
  STAT_BADCONN := 0;
  STAT_OPEN    := 1;
  STAT_CLOSE   := 2;
  STAT_REFUSE  := 3;
  STAT_DENIED  := 4;
  MAXBUFFSIZE  := 98304;
  PACKAGE      := "tinyproxy";
  VERSION      := "1.11.0"
|}.

(** ** The counter store *)

(** [struct stat_s]: five [unsigned long int] counters. *)
Record stat_s : Type := {
  num_reqs    : Z;
  num_badcons : Z;
  num_open    : Z;
  num_refused : Z;
  num_denied  : Z
}.

(** [stats_buf] is a static object: all counters start at zero. *)
Definition stats_buf : stat_s := {|
  num_reqs := 0; num_badcons := 0; num_open := 0;
  num_refused := 0; num_denied := 0
|}.

Section Counters.

Context (h : headers).

(** [ULONG_MAX + 1]. *)
Definition ulong_modulus : Z := 2 ^ Z.pos (ULONG_BITS h).

Definition ULONG_MAX : Z := ulong_modulus - 1.

(** [++x] and [--x] on an [unsigned long]: arithmetic modulo
    [ULONG_MAX + 1]. *)
Definition pre_incr (x : Z) : Z := (x + 1) mod ulong_modulus.
Definition pre_decr (x : Z) : Z := (x - 1) mod ulong_modulus.

(** Every field holds a value of type [unsigned long]. *)
Definition is_ulong (x : Z) : Prop := 0 <= x < ulong_modulus.

Definition stats_wf (s : stat_s) : Prop :=
  is_ulong (num_reqs s) /\ is_ulong (num_badcons s) /\ is_ulong (num_open s) /\
  is_ulong (num_refused s) /\ is_ulong (num_denied s).

(** [update_stats]: the returned [int] and the store afterwards.  The
    [switch] takes the first label equal to [update_level], the
    [default] branch sets [ret = -1] and touches nothing. *)
Definition update_stats (update_level : Z) (stats : stat_s) : Z * stat_s :=
  if update_level =? STAT_BADCONN h then
    (0, {| num_reqs    := num_reqs stats;
           num_badcons := pre_incr (num_badcons stats);
           num_open    := num_open stats;
           num_refused := num_refused stats;
           num_denied  := num_denied stats |})
  else if update_level =? STAT_OPEN h then
    (0, {| num_reqs    := pre_incr (num_reqs stats);
           num_badcons := num_badcons stats;
           num_open    := pre_incr (num_open stats);
           num_refused := num_refused stats;
           num_denied  := num_denied stats |})
  else if update_level =? STAT_CLOSE h then
    (0, {| num_reqs    := num_reqs stats;
           num_badcons := num_badcons stats;
           num_open    := pre_decr (num_open stats);
           num_refused := num_refused stats;
           num_denied  := num_denied stats |})
  else if update_level =? STAT_REFUSE h then
    (0, {| num_reqs    := num_reqs stats;
           num_badcons := num_badcons stats;
           num_open    := num_open stats;
           num_refused := pre_incr (num_refused stats);
           num_denied  := num_denied stats |})
  else if update_level =? STAT_DENIED h then
    (0, {| num_reqs    := num_reqs stats;
           num_badcons := num_badcons stats;
           num_open    := num_open stats;
           num_refused := num_refused stats;
           num_denied  := pre_incr (num_denied stats) |})
  else (-1, stats).

(** A run of calls, each on the store the previous one left. *)
Fixpoint update_all (levels : list Z) (stats : stat_s) : stat_s :=
  match levels with
  | [] => stats
  | l :: rest => update_all rest (snd (update_stats l stats))
  end.

End Counters.

(** ** C strings and the libc functions showstats calls *)

Local Open Scope string_scope.

(** The newline and the double quote of the C string literals. *)
Definition nl : string := String (ascii_of_nat 10) EmptyString.
Definition dq : string := String (ascii_of_nat 34) EmptyString.

(** A call either returns, or has undefined behaviour in C. *)
Inductive result (A : Type) : Type :=
| Ok (a : A)
| Undefined.

Arguments Ok {A} a.
Arguments Undefined {A}.

Definition bind {A B : Type} (r : result A) (k : A -> result B) : result B :=
  match r with
  | Ok a => k a
  | Undefined => Undefined
  end.

Notation "x <- r ;; k" := (bind r (fun x => k))
  (at level 61, r at next level, right associativity).

(** [strstr] on a non-null haystack: the offset of the first occurrence
    of [needle], [None] for the null pointer it returns when there is
    none.  The empty needle occurs at offset 0. *)
Fixpoint strstr_at (haystack needle : string) : option nat :=
  if prefix needle haystack then Some O
  else match haystack with
       | EmptyString => None
       | String _ rest => option_map S (strstr_at rest needle)
       end.

(** A [char *] is [None] when it is the null pointer.  [strstr] reads
    its first argument, so a null haystack is undefined behaviour. *)
Definition strstr (haystack : option string) (needle : string)
  : result (option nat) :=
  match haystack with
  | None => Undefined
  | Some text => Ok (strstr_at text needle)
  end.

(** The conversion [%lu]: the decimal digits of an [unsigned long]. *)
Definition fmt_lu (x : Z) : string :=
  NilZero.string_of_uint (N.to_uint (Z.to_N x)).

(** [snprintf (buf, size, ...)] with a positive [size] stores at most
    [size - 1] characters of the formatted text, then the terminator. *)
Definition snprintf (size : Z) (text : string) : string :=
  if (Z.of_nat (String.length text) <? size)%Z then text
  else substring 0 (Z.to_nat (size - 1)) text.

(** ** The ordered map *)

(** Modelled from the spec: orderedmap.c, the ordered map of request
    headers and of the format registry, is not under src/.  The spec
    describes the registry as an insertion-ordered sequence of
    (content type, template reference) pairs, built once and scanned
    linearly. *)
Definition orderedmap : Type := list (string * string).

(** Modelled from the spec: [orderedmap_create] of orderedmap.c, the
    empty sequence. *)
Definition orderedmap_create : orderedmap := [].

(** Modelled from the spec: [orderedmap_append] of orderedmap.c puts
    the pair after those already there. *)
Definition orderedmap_append (o : orderedmap) (key value : string)
  : orderedmap := (o ++ [(key, value)])%list.

(** Modelled from the spec: [orderedmap_find] of orderedmap.c gives
    the value stored under a key; the accept preference may be absent,
    and the [char *] returned is then the null pointer, [None]. *)
Fixpoint orderedmap_find (o : orderedmap) (key : string) : option string :=
  match o with
  | [] => None
  | (k, v) :: rest => if String.eqb k key then Some v else orderedmap_find rest key
  end.

(** Modelled from the spec: [orderedmap_next (o, iter, &key, &value)]
    of orderedmap.c walks the pairs in insertion order: it gives the
    entry at position [iter] and the position to continue from, [None]
    for the 0 it returns at the end. *)
Definition orderedmap_next (o : orderedmap) (iter : nat)
  : option (nat * (string * string)) :=
  match nth_error o iter with
  | Some entry => Some (S iter, entry)
  | None => None
  end.

(** [init_stats]: the registry of statistics page types. *)
Definition init_stats : orderedmap :=
  orderedmap_append
    (orderedmap_append orderedmap_create "text/html" "data/templates/stats.html")
    "application/json" "data/templates/stats.json".

(** ** showstats *)

Inductive mutex : Type := stats_update_lock | stats_file_lock.

(** An open stream, named by a descriptor. *)
Definition FILE : Type := nat.

(** The calls showstats makes to the mutexes, the streams, the heap,
    the template variables and the senders, in the order it makes
    them, each with what it was given and what came back.  The string
    functions of libc and the ordered map, which it calls before any
    of these (lines 80-95), are functions of the embedding and leave
    no event. *)
Inductive event : Type :=
| pthread_mutex_lock (m : mutex)
| pthread_mutex_unlock (m : mutex)
| fopen (path : string) (stream : option FILE)
| fclose (stream : FILE)
| safemalloc (size : Z) (allocated : bool)
| safefree
| send_http_message (code : Z) (msg body : string) (ret : Z)
| add_error_variable (key val : string)
| add_standard_vars
| send_http_headers (code : Z) (msg extra : string) (ret : Z)
| send_html_file (stream : FILE) (ret : Z).

(** What the world answers to the calls whose code is outside stats.c:
    whether [fopen] opens the file, whether [safemalloc] finds room,
    and the [int] each of the three senders of html-error.c reports
    ([< 0] when the transmission failed).  showstats looks at the
    first three answers and the one of [send_http_message] only. *)
Record world : Type := {
  fopen_r                  : string -> option FILE;
  safemalloc_r             : Z -> bool;
  send_http_message_r      : Z -> string -> string -> Z;
  send_http_headers_r      : Z;
  send_html_file_r         : FILE -> Z
}.

Section Showstats.

Context (h : headers).

(** Lines 90-95: walk [stat_types] in order; the first entry whose key
    [strstr] finds in [accept_header] gives [type_based_stats] and
    ends the loop. *)
Fixpoint type_scan (accept_header : option string) (stat_types : orderedmap)
  : result (option string) :=
  match stat_types with
  | [] => Ok None
  | (stat_type, type_fname) :: rest =>
      found <- strstr accept_header stat_type ;;
      match found with
      | Some _ => Ok (Some type_fname)
      | None => type_scan accept_header rest
      end
  end.

(** The same loop as the source writes it, on the iterator: each turn
    asks [orderedmap_next] for the entry at [iter].  [fuel] bounds the
    number of turns; [None] when it runs out. *)
Fixpoint type_loop (fuel : nat) (accept_header : option string)
    (stat_types : orderedmap) (iter : nat) : option (result (option string)) :=
  match fuel with
  | O => None
  | S fuel' =>
      match orderedmap_next stat_types iter with
      | None => Some (Ok None)
      | Some (iter', (stat_type, type_fname)) =>
          match strstr accept_header stat_type with
          | Undefined => Some Undefined
          | Ok (Some _) => Some (Ok (Some type_fname))
          | Ok None => type_loop fuel' accept_header stat_types iter'
          end
      end
  end.

(** Lines 86-106: the value of [stats_template], [None] for NULL. *)
Definition select_template (request_headers stat_types : orderedmap)
    (statpage : option string) : result (option string) :=
  let accept_header := orderedmap_find request_headers "accept" in
  type_based_stats <- type_scan accept_header stat_types ;;
  Ok match type_based_stats with
     | Some type_fname => Some type_fname
     | None =>
         match statpage with
         | Some page => Some page
         | None => None
         end
     end.

(** The text the format of lines 120-136 expands to. *)
Definition minimal_page_text (stats : stat_s) : string :=
  "<?xml version=" ++ dq ++ "1.0" ++ dq ++ " encoding=" ++ dq ++ "UTF-8" ++ dq
    ++ " ?>" ++ nl ++
  "<!DOCTYPE html PUBLIC " ++ dq ++ "-//W3C//DTD XHTML 1.1//EN" ++ dq ++ " " ++
  dq ++ "http://www.w3.org/TR/xhtml11/DTD/xhtml11.dtd" ++ dq ++ ">" ++ nl ++
  "<html>" ++ nl ++
  "<head><title>" ++ PACKAGE h ++ " version " ++ VERSION h
    ++ " run-time statistics</title></head>" ++ nl ++
  "<body>" ++ nl ++
  "<h1>" ++ PACKAGE h ++ " version " ++ VERSION h
    ++ " run-time statistics</h1>" ++ nl ++
  "<p>" ++ nl ++
  "Number of open connections: " ++ fmt_lu (num_open stats) ++ "<br />" ++ nl ++
  "Number of requests: " ++ fmt_lu (num_reqs stats) ++ "<br />" ++ nl ++
  "Number of bad connections: " ++ fmt_lu (num_badcons stats) ++ "<br />" ++ nl ++
  "Number of denied connections: " ++ fmt_lu (num_denied stats) ++ "<br />" ++ nl ++
  "Number of refused connections due to high load: "
    ++ fmt_lu (num_refused stats) ++ nl ++
  "</p>" ++ nl ++
  "<hr />" ++ nl ++
  "<p><em>Generated by " ++ PACKAGE h ++ " version " ++ VERSION h
    ++ ".</em></p>" ++ nl ++ "</body>" ++ nl ++
  "</html>" ++ nl.

(** Lines 111-151, entered with [stats_file_lock] held: the built-in
    page.  Gives the returned [int] and the calls made. *)
Definition show_minimal (stats : stat_s) (w : world) : Z * list event :=
  if safemalloc_r w (MAXBUFFSIZE h) then
    let message_buffer := snprintf (MAXBUFFSIZE h) (minimal_page_text stats) in
    let sent := send_http_message_r w 200 "OK" message_buffer in
    if (sent <? 0)%Z then
      (-1, [safemalloc (MAXBUFFSIZE h) true;
            send_http_message 200 "OK" message_buffer sent;
            safefree;
            pthread_mutex_unlock stats_file_lock])
    else
      (0, [safemalloc (MAXBUFFSIZE h) true;
           send_http_message 200 "OK" message_buffer sent;
           safefree;
           pthread_mutex_unlock stats_file_lock])
  else
    (-1, [safemalloc (MAXBUFFSIZE h) false;
          pthread_mutex_unlock stats_file_lock]).

(** Lines 153-164: the template is open; the five buffers of lines
    80-84 become template variables. *)
Definition show_template (statfile : FILE) (stats : stat_s) (w : world)
  : Z * list event :=
  let opens    := snprintf 16 (fmt_lu (num_open stats)) in
  let reqs     := snprintf 16 (fmt_lu (num_reqs stats)) in
  let badconns := snprintf 16 (fmt_lu (num_badcons stats)) in
  let denied   := snprintf 16 (fmt_lu (num_denied stats)) in
  let refused  := snprintf 16 (fmt_lu (num_refused stats)) in
  (0, [add_error_variable "opens" opens;
       add_error_variable "reqs" reqs;
       add_error_variable "badconns" badconns;
       add_error_variable "deniedconns" denied;
       add_error_variable "refusedconns" refused;
       add_standard_vars;
       send_http_headers 200 "Statistic requested" EmptyString
         (send_http_headers_r w);
       send_html_file statfile (send_html_file_r w statfile);
       fclose statfile;
       pthread_mutex_unlock stats_file_lock]).

(** [showstats]: [request_headers] is its argument, [stat_types],
    [config->statpage] and [*stats] are the globals it reads. *)
Definition showstats (request_headers stat_types : orderedmap)
    (statpage : option string) (stats : stat_s) (w : world)
  : result (Z * list event) :=
  stats_template <- select_template request_headers stat_types statpage ;;
  Ok match stats_template with
     | None =>
         let '(ret, calls) := show_minimal stats w in
         (ret, pthread_mutex_lock stats_file_lock :: calls)
     | Some path =>
         match fopen_r w path with
         | None =>
             let '(ret, calls) := show_minimal stats w in
             (ret, pthread_mutex_lock stats_file_lock :: fopen path None :: calls)
         | Some statfile =>
             let '(ret, calls) := show_template statfile stats w in
             (ret, pthread_mutex_lock stats_file_lock
                     :: fopen path (Some statfile) :: calls)
         end
     end.

End Showstats.

(** ** Threads

    tinyproxy runs [update_stats] and [showstats] on several threads
    over the one [stats_buf].  Each function is the sequence of its
    lock calls and of its accesses to the fields of [*stats]; a
    machine interleaves the sequences of its threads one access at a
    time. *)

Inductive field : Type :=
| f_num_reqs | f_num_badcons | f_num_open | f_num_refused | f_num_denied.

Inductive op : Type :=
| op_lock (m : mutex)
| op_unlock (m : mutex)
| op_incr (f : field)
| op_decr (f : field)
| op_read (f : field).

Definition get_field (f : field) (s : stat_s) : Z :=
  match f with
  | f_num_reqs => num_reqs s
  | f_num_badcons => num_badcons s
  | f_num_open => num_open s
  | f_num_refused => num_refused s
  | f_num_denied => num_denied s
  end.

Definition set_field (f : field) (v : Z) (s : stat_s) : stat_s :=
  match f with
  | f_num_reqs =>
      {| num_reqs := v; num_badcons := num_badcons s; num_open := num_open s;
         num_refused := num_refused s; num_denied := num_denied s |}
  | f_num_badcons =>
      {| num_reqs := num_reqs s; num_badcons := v; num_open := num_open s;
         num_refused := num_refused s; num_denied := num_denied s |}
  | f_num_open =>
      {| num_reqs := num_reqs s; num_badcons := num_badcons s; num_open := v;
         num_refused := num_refused s; num_denied := num_denied s |}
  | f_num_refused =>
      {| num_reqs := num_reqs s; num_badcons := num_badcons s; num_open := num_open s;
         num_refused := v; num_denied := num_denied s |}
  | f_num_denied =>
      {| num_reqs := num_reqs s; num_badcons := num_badcons s; num_open := num_open s;
         num_refused := num_refused s; num_denied := v |}
  end.

Definition mutex_eqb (a b : mutex) : bool :=
  match a, b with
  | stats_update_lock, stats_update_lock => true
  | stats_file_lock, stats_file_lock => true
  | _, _ => false
  end.

(** A thread: the accesses it still has to make, and the values its
    reads returned so far. *)
Record thread : Type := {
  todo : list op;
  seen : list (field * Z)
}.

Record machine : Type := {
  shared : stat_s;
  owner  : mutex -> option nat;
  pool   : list thread
}.

Definition start (ops : list op) : thread := {| todo := ops; seen := [] |}.

Definition boot (s : stat_s) (programs : list (list op)) : machine :=
  {| shared := s; owner := fun _ => None; pool := map start programs |}.

Fixpoint set_thread (i : nat) (t : thread) (ts : list thread) : list thread :=
  match ts, i with
  | [], _ => []
  | _ :: rest, O => t :: rest
  | t0 :: rest, S j => t0 :: set_thread j t rest
  end.

Section Threads.

Context (h : headers).

(** Lines 175-196 of [update_stats]. *)
Definition update_stats_ops (update_level : Z) : list op :=
  (op_lock stats_update_lock ::
   (if (update_level =? STAT_BADCONN h)%Z then [op_incr f_num_badcons]
    else if (update_level =? STAT_OPEN h)%Z then [op_incr f_num_open; op_incr f_num_reqs]
    else if (update_level =? STAT_CLOSE h)%Z then [op_decr f_num_open]
    else if (update_level =? STAT_REFUSE h)%Z then [op_incr f_num_refused]
    else if (update_level =? STAT_DENIED h)%Z then [op_incr f_num_denied]
    else []) ++
   [op_unlock stats_update_lock])%list.

(** [showstats]: the reads of lines 80-84, the lock of line 108, the
    reads of lines 138-141 when the built-in page is formatted, the
    unlock. *)
Definition showstats_ops (minimal : bool) : list op :=
  ([op_read f_num_open; op_read f_num_reqs; op_read f_num_badcons;
    op_read f_num_denied; op_read f_num_refused;
    op_lock stats_file_lock] ++
   (if minimal
    then [op_read f_num_open; op_read f_num_reqs; op_read f_num_badcons;
          op_read f_num_denied; op_read f_num_refused]
    else []) ++
   [op_unlock stats_file_lock])%list.

(** One access of thread [i]; [None] when the thread has finished or
    waits for a mutex another thread holds. *)
Definition step (m : machine) (i : nat) : option machine :=
  match nth_error (pool m) i with
  | None => None
  | Some t =>
      match todo t with
      | [] => None
      | o :: rest =>
          let t' := {| todo := rest; seen := seen t |} in
          match o with
          | op_lock mx =>
              match owner m mx with
              | Some _ => None
              | None =>
                  Some {| shared := shared m;
                          owner := fun x => if mutex_eqb x mx then Some i else owner m x;
                          pool := set_thread i t' (pool m) |}
              end
          | op_unlock mx =>
              Some {| shared := shared m;
                      owner := fun x => if mutex_eqb x mx then None else owner m x;
                      pool := set_thread i t' (pool m) |}
          | op_incr f =>
              Some {| shared := set_field f (pre_incr h (get_field f (shared m))) (shared m);
                      owner := owner m;
                      pool := set_thread i t' (pool m) |}
          | op_decr f =>
              Some {| shared := set_field f (pre_decr h (get_field f (shared m))) (shared m);
                      owner := owner m;
                      pool := set_thread i t' (pool m) |}
          | op_read f =>
              Some {| shared := shared m;
                      owner := owner m;
                      pool := set_thread i
                                {| todo := rest;
                                   seen := (seen t ++ [(f, get_field f (shared m))])%list |}
                                (pool m) |}
          end
      end
  end.

(** A schedule names the thread that moves at each turn. *)
Fixpoint run (schedule : list nat) (m : machine) : option machine :=
  match schedule with
  | [] => Some m
  | i :: rest =>
      match step m i with
      | None => None
      | Some m' => run rest m'
      end
  end.

End Threads.

(** ** The properties, as predicates on the embedding *)

Local Open Scope Z_scope.

(** How many calls of a run have a given level. *)
Definition count_level (level : Z) (levels : list Z) : Z :=
  Z.of_nat (count_occ Z.eq_dec levels level).

(** A run made of [STAT_OPEN] and [STAT_CLOSE] calls only. *)
Definition open_close_only (h : headers) (levels : list Z) : Prop :=
  Forall (fun l => l = STAT_OPEN h \/ l = STAT_CLOSE h) levels.

(** After the run on the fresh store, [num_open] is the number of
    opens less the number of closes and [num_reqs] the number of
    opens, as integers. *)
Definition open_close_exact (h : headers) (levels : list Z) : Prop :=
  let s := update_all h levels stats_buf in
  num_open s = count_level (STAT_OPEN h) levels - count_level (STAT_CLOSE h) levels /\
  num_reqs s = count_level (STAT_OPEN h) levels.

(** [needle] occurs somewhere in [text]. *)
Definition occurs_in (needle text : string) : Prop :=
  exists before after, text = (before ++ needle ++ after)%string.

(** The entry [(stat_type, type_fname)] is the first of the registry
    whose key occurs in [accept]. *)
Definition first_match (accept : string) (stat_types : orderedmap)
    (type_fname : string) : Prop :=
  exists earlier stat_type later,
    stat_types = (earlier ++ (stat_type, type_fname) :: later)%list /\
    occurs_in stat_type accept /\
    Forall (fun e => ~ occurs_in (fst e) accept) earlier.

Definition no_match (accept : string) (stat_types : orderedmap) : Prop :=
  Forall (fun e => ~ occurs_in (fst e) accept) stat_types.

(** Reading a decimal numeral back. *)
Definition parse_lu (text : string) : option Z :=
  option_map (fun d => Z.of_N (N.of_uint d)) (NilZero.uint_of_string text).

(** A sender event that reports a failed transmission. *)
Definition send_failed (e : event) : bool :=
  match e with
  | send_http_message _ _ _ ret => ret <? 0
  | send_http_headers _ _ _ ret => ret <? 0
  | send_html_file _ ret => ret <? 0
  | _ => false
  end.

(** A run of showstats returns a negative [int] exactly when one of
    its senders reported a failure. *)
Definition fails_iff_send_fails (r : result (Z * list event)) : Prop :=
  match r with
  | Ok (ret, calls) => (ret <? 0) = existsb send_failed calls
  | Undefined => False
  end.

(** A run of showstats returns 0. *)
Definition returns_success (r : result (Z * list event)) : Prop :=
  match r with
  | Ok (ret, _) => ret = 0
  | Undefined => False
  end.

(** A world in which every file opens (as stream 3) or none does, the
    heap has room or not, and the three senders report the given
    values. *)
Definition a_world (openable room : bool) (message headers body : Z) : world := {|
  fopen_r             := fun _ => if openable then Some 3%nat else None;
  safemalloc_r        := fun _ => room;
  send_http_message_r := fun _ _ _ => message;
  send_http_headers_r := headers;
  send_html_file_r    := fun _ => body
|}.

(** ** Further predicates and checkers *)

(** Every counter is below [bound]. *)
Definition counters_below (bound : Z) (s : stat_s) : Prop :=
  (0 <= num_reqs s < bound)%Z /\ (0 <= num_badcons s < bound)%Z /\
  (0 <= num_open s < bound)%Z /\ (0 <= num_refused s < bound)%Z /\
  (0 <= num_denied s < bound)%Z.

(** The five counter lines of the built-in page. *)
Definition counter_lines (s : stat_s) : list string :=
  ["Number of open connections: " ++ fmt_lu (num_open s) ++ "<br />";
   "Number of requests: " ++ fmt_lu (num_reqs s) ++ "<br />";
   "Number of bad connections: " ++ fmt_lu (num_badcons s) ++ "<br />";
   "Number of denied connections: " ++ fmt_lu (num_denied s) ++ "<br />";
   "Number of refused connections due to high load: "
     ++ fmt_lu (num_refused s) ++ nl].

(** ** What a run of showstats holds

    The calls of a run, read as a protocol: a mutex is locked before
    it is unlocked and not locked twice, a stream is open while it is
    read and closed once, the page buffer is live while it is sent and
    freed once. *)

Definition is_sender (e : event) : bool :=
  match e with
  | send_http_message _ _ _ _ | send_http_headers _ _ _ _ | send_html_file _ _ => true
  | _ => false
  end.


Record holdings : Type := {
  held_locks   : list mutex;
  open_streams : list FILE;
  live_buffers : nat
}.

Definition nothing_held : holdings :=
  {| held_locks := []; open_streams := []; live_buffers := 0 |}.

(** The holdings after one more call; [None] when the call breaks the
    protocol. *)
Definition track (r : holdings) (e : event) : option holdings :=
  match e with
  | pthread_mutex_lock m =>
      if existsb (mutex_eqb m) (held_locks r) then None
      else Some {| held_locks := m :: held_locks r;
                   open_streams := open_streams r;
                   live_buffers := live_buffers r |}
  | pthread_mutex_unlock m =>
      if existsb (mutex_eqb m) (held_locks r)
      then Some {| held_locks := filter (fun x => negb (mutex_eqb m x)) (held_locks r);
                   open_streams := open_streams r;
                   live_buffers := live_buffers r |}
      else None
  | fopen _ (Some stream) =>
      Some {| held_locks := held_locks r;
              open_streams := stream :: open_streams r;
              live_buffers := live_buffers r |}
  | fclose stream =>
      if existsb (Nat.eqb stream) (open_streams r)
      then Some {| held_locks := held_locks r;
                   open_streams := filter (fun x => negb (Nat.eqb stream x)) (open_streams r);
                   live_buffers := live_buffers r |}
      else None
  | send_html_file stream _ =>
      if existsb (Nat.eqb stream) (open_streams r) then Some r else None
  | safemalloc _ true =>
      Some {| held_locks := held_locks r;
              open_streams := open_streams r;
              live_buffers := S (live_buffers r) |}
  | safefree =>
      match live_buffers r with
      | O => None
      | S n => Some {| held_locks := held_locks r;
                       open_streams := open_streams r;
                       live_buffers := n |}
      end
  | send_http_message _ _ _ _ =>
      match live_buffers r with
      | O => None
      | S _ => Some r
      end
  | _ => Some r
  end.

Fixpoint track_all (calls : list event) (r : holdings) : option holdings :=
  match calls with
  | [] => Some r
  | e :: rest =>
      match track r e with
      | None => None
      | Some r' => track_all rest r'
      end
  end.

(** ** Lock discipline of the threads *)

(** A thread that holds [held] and still has [ops] to run takes one
    mutex at a time, unlocks the mutex it took, and ends holding none. *)
Fixpoint disciplined (held : option mutex) (ops : list op) : bool :=
  match ops with
  | [] => match held with None => true | Some _ => false end
  | op_lock mx :: rest =>
      match held with
      | None => disciplined (Some mx) rest
      | Some _ => false
      end
  | op_unlock mx :: rest =>
      match held with
      | None => false
      | Some mx' => mutex_eqb mx mx' && disciplined None rest
      end
  | _ :: rest => disciplined held rest
  end.

(** The code of a thread of tinyproxy that works on the statistics. *)
Definition is_program (h : headers) (ops : list op) : Prop :=
  (exists update_level, ops = update_stats_ops h update_level) \/
  (exists minimal, ops = showstats_ops minimal).

Definition finished (m : machine) : Prop :=
  Forall (fun t => todo t = []) (pool m).

Definition remaining (m : machine) : nat :=
  list_sum (map (fun t => List.length (todo t)) (pool m)).

(** What relates the owners of the mutexes to the threads. *)
Definition thread_inv (m : machine) (i : nat) (t : thread) : Prop :=
  exists held,
    disciplined held (todo t) = true /\
    forall mx, owner m mx = Some i <-> held = Some mx.

Definition machine_inv (m : machine) : Prop :=
  (forall i t, nth_error (pool m) i = Some t -> thread_inv m i t) /\
  (forall mx j, owner m mx = Some j -> (j < List.length (pool m))%nat).

(** ** The increments, one memory access at a time

    [++stats->num_open] is a load of the field, an addition and a
    store.  The workers below run [update_stats] at that grain: each
    has the value it loaded last, and a step of the machine is one
    lock call or one access of one worker. *)

Inductive instr : Type :=
| i_lock (m : mutex)
| i_unlock (m : mutex)
| i_load (f : field)
| i_store_incr (f : field)
| i_store_decr (f : field).

Definition incr_code (f : field) : list instr := [i_load f; i_store_incr f].
Definition decr_code (f : field) : list instr := [i_load f; i_store_decr f].

Record worker : Type := {
  code : list instr;
  tmp  : Z
}.

Record fine_machine : Type := {
  fine_shared : stat_s;
  fine_owner  : mutex -> option nat;
  workers     : list worker
}.

Definition fine_boot (s : stat_s) (codes : list (list instr)) : fine_machine :=
  {| fine_shared := s;
     fine_owner := fun _ => None;
     workers := map (fun c => {| code := c; tmp := 0 |}) codes |}.

Fixpoint set_worker (i : nat) (w : worker) (ws : list worker) : list worker :=
  match ws, i with
  | [], _ => []
  | _ :: rest, O => w :: rest
  | w0 :: rest, S j => w0 :: set_worker j w rest
  end.

Definition starts_with_lock (c : list instr) : bool :=
  match c with
  | i_lock _ :: _ => true
  | _ => false
  end.

Definition is_access (i : instr) : bool :=
  match i with
  | i_load _ | i_store_incr _ | i_store_decr _ => true
  | _ => false
  end.

Section FineGrain.

Context (h : headers).

(** The [switch] of [update_stats], lines 176-195. *)
Definition update_stats_body (update_level : Z) : list instr :=
  if (update_level =? STAT_BADCONN h)%Z then incr_code f_num_badcons
  else if (update_level =? STAT_OPEN h)%Z
       then (incr_code f_num_open ++ incr_code f_num_reqs)%list
  else if (update_level =? STAT_CLOSE h)%Z then decr_code f_num_open
  else if (update_level =? STAT_REFUSE h)%Z then incr_code f_num_refused
  else if (update_level =? STAT_DENIED h)%Z then incr_code f_num_denied
  else [].

(** Lines 175-196. *)
Definition update_stats_code (update_level : Z) : list instr :=
  (i_lock stats_update_lock :: update_stats_body update_level
     ++ [i_unlock stats_update_lock])%list.

Definition fine_step (m : fine_machine) (i : nat) : option fine_machine :=
  match nth_error (workers m) i with
  | None => None
  | Some w =>
      match code w with
      | [] => None
      | o :: rest =>
          match o with
          | i_lock mx =>
              match fine_owner m mx with
              | Some _ => None
              | None =>
                  Some {| fine_shared := fine_shared m;
                          fine_owner := fun x => if mutex_eqb x mx then Some i
                                                 else fine_owner m x;
                          workers := set_worker i {| code := rest; tmp := tmp w |}
                                       (workers m) |}
              end
          | i_unlock mx =>
              Some {| fine_shared := fine_shared m;
                      fine_owner := fun x => if mutex_eqb x mx then None
                                             else fine_owner m x;
                      workers := set_worker i {| code := rest; tmp := tmp w |}
                                   (workers m) |}
          | i_load f =>
              Some {| fine_shared := fine_shared m;
                      fine_owner := fine_owner m;
                      workers := set_worker i
                                   {| code := rest; tmp := get_field f (fine_shared m) |}
                                   (workers m) |}
          | i_store_incr f =>
              Some {| fine_shared := set_field f (pre_incr h (tmp w)) (fine_shared m);
                      fine_owner := fine_owner m;
                      workers := set_worker i {| code := rest; tmp := tmp w |}
                                   (workers m) |}
          | i_store_decr f =>
              Some {| fine_shared := set_field f (pre_decr h (tmp w)) (fine_shared m);
                      fine_owner := fine_owner m;
                      workers := set_worker i {| code := rest; tmp := tmp w |}
                                   (workers m) |}
          end
      end
  end.

Fixpoint fine_run (schedule : list nat) (m : fine_machine) : option fine_machine :=
  match schedule with
  | [] => Some m
  | i :: rest =>
      match fine_step m i with
      | None => None
      | Some m' => fine_run rest m'
      end
  end.

(** What the accesses of [c] do to the store when no other worker
    moves in between. *)
Fixpoint alone (c : list instr) (loaded : Z) (s : stat_s) : stat_s :=
  match c with
  | [] => s
  | i_load f :: rest => alone rest (get_field f s) s
  | i_store_incr f :: rest => alone rest loaded (set_field f (pre_incr h loaded) s)
  | i_store_decr f :: rest => alone rest loaded (set_field f (pre_decr h loaded) s)
  | _ :: rest => alone rest loaded s
  end.

(** The store once the workers that have not started have each run
    alone, in the order of the pool. *)
Fixpoint fresh_effects (ws : list worker) (s : stat_s) : stat_s :=
  match ws with
  | [] => s
  | w :: rest =>
      fresh_effects rest
        (if starts_with_lock (code w) then alone (code w) (tmp w) s else s)
  end.

(** The store once the worker inside the critical section, if there
    is one, has run to its end and the others after it. *)
Definition outcome (m : fine_machine) : stat_s :=
  fresh_effects (workers m)
    match fine_owner m stats_update_lock with
    | None => fine_shared m
    | Some j =>
        match nth_error (workers m) j with
        | None => fine_shared m
        | Some w => alone (code w) (tmp w) (fine_shared m)
        end
    end.

Definition worker_inv (m : fine_machine) (i : nat) (w : worker) : Prop :=
  (fine_owner m stats_update_lock = Some i /\
   exists rest, code w = (rest ++ [i_unlock stats_update_lock])%list /\
                forallb is_access rest = true) \/
  (fine_owner m stats_update_lock <> Some i /\
   (code w = [] \/ exists l, code w = update_stats_code l)).

Definition fine_inv (m : fine_machine) : Prop :=
  (forall i w, nth_error (workers m) i = Some w -> worker_inv m i w) /\
  (forall j, fine_owner m stats_update_lock = Some j ->
             (j < List.length (workers m))%nat).

End FineGrain.

(** Closing a hypothesis about the labels of a concrete build. *)
Ltac labels_tac :=
  unfold labels_distinct, status_labels, open_close_only; simpl;
  repeat (constructor; simpl; try (intuition discriminate); try tauto).

(** ** Facts about the counter arithmetic *)

Section CounterFacts.

Context (h : headers).

Lemma ulong_modulus_pos : 0 < ulong_modulus h.
Proof. unfold ulong_modulus. apply Z.pow_pos_nonneg; lia. Qed.

Lemma ulong_modulus_gt_1 : 1 < ulong_modulus h.
Proof.
  unfold ulong_modulus.
  change 1 with (2 ^ 0) at 1.
  apply Z.pow_lt_mono_r; lia.
Qed.

Lemma pre_incr_ulong x : is_ulong h (pre_incr h x).
Proof. apply Z.mod_pos_bound, ulong_modulus_pos. Qed.

Lemma pre_decr_ulong x : is_ulong h (pre_decr h x).
Proof. apply Z.mod_pos_bound, ulong_modulus_pos. Qed.

Lemma pre_incr_exact x : 0 <= x < ULONG_MAX h -> pre_incr h x = x + 1.
Proof. unfold pre_incr, ULONG_MAX. intros Hx. apply Z.mod_small. lia. Qed.

Lemma pre_decr_exact x : 0 < x < ulong_modulus h -> pre_decr h x = x - 1.
Proof. unfold pre_decr. intros Hx. apply Z.mod_small. lia. Qed.

Lemma pre_decr_zero : pre_decr h 0 = ULONG_MAX h.
Proof.
  unfold pre_decr, ULONG_MAX.
  pose proof ulong_modulus_pos as Hm.
  symmetry. apply Z.mod_unique_pos with (q := -1); lia.
Qed.

Lemma pre_incr_max : pre_incr h (ULONG_MAX h) = 0.
Proof.
  unfold pre_incr, ULONG_MAX.
  replace (ulong_modulus h - 1 + 1) with (ulong_modulus h) by lia.
  apply Z.mod_same. pose proof ulong_modulus_pos. lia.
Qed.

End CounterFacts.

(** ** update_stats *)

Section UpdateStats.

Context (h : headers).

Lemma labels_distinct_eqb :
  labels_distinct h ->
  (STAT_OPEN h =? STAT_BADCONN h) = false /\
  (STAT_CLOSE h =? STAT_BADCONN h) = false /\
  (STAT_CLOSE h =? STAT_OPEN h) = false /\
  (STAT_REFUSE h =? STAT_BADCONN h) = false /\
  (STAT_REFUSE h =? STAT_OPEN h) = false /\
  (STAT_REFUSE h =? STAT_CLOSE h) = false /\
  (STAT_DENIED h =? STAT_BADCONN h) = false /\
  (STAT_DENIED h =? STAT_OPEN h) = false /\
  (STAT_DENIED h =? STAT_CLOSE h) = false /\
  (STAT_DENIED h =? STAT_REFUSE h) = false.
Proof.
  unfold labels_distinct, status_labels. intros Hd.
  inversion_clear Hd as [|? ? Ha Hd1].
  inversion_clear Hd1 as [|? ? Hb Hd2].
  inversion_clear Hd2 as [|? ? Hc Hd3].
  inversion_clear Hd3 as [|? ? He _].
  simpl in Ha, Hb, Hc, He.
  repeat split; apply Z.eqb_neq; intuition congruence.
Qed.

Lemma update_stats_open (stats : stat_s) :
  labels_distinct h ->
  update_stats h (STAT_OPEN h) stats =
    (0, {| num_reqs    := pre_incr h (num_reqs stats);
           num_badcons := num_badcons stats;
           num_open    := pre_incr h (num_open stats);
           num_refused := num_refused stats;
           num_denied  := num_denied stats |}).
Proof.
  intros Hd. apply labels_distinct_eqb in Hd.
  destruct Hd as (E1 & _).
  unfold update_stats. now rewrite E1, Z.eqb_refl.
Qed.

Lemma update_stats_close (stats : stat_s) :
  labels_distinct h ->
  update_stats h (STAT_CLOSE h) stats =
    (0, {| num_reqs    := num_reqs stats;
           num_badcons := num_badcons stats;
           num_open    := pre_decr h (num_open stats);
           num_refused := num_refused stats;
           num_denied  := num_denied stats |}).
Proof.
  intros Hd. apply labels_distinct_eqb in Hd.
  destruct Hd as (_ & E2 & E3 & _).
  unfold update_stats. now rewrite E2, E3, Z.eqb_refl.
Qed.

(** Every call leaves [unsigned long] values in the store. *)
Lemma update_stats_wf (update_level : Z) (stats : stat_s) :
  stats_wf h stats -> stats_wf h (snd (update_stats h update_level stats)).
Proof.
  unfold stats_wf, update_stats. intros (Hr & Hb & Ho & Hf & Hn).
  repeat match goal with
         | |- context [update_level =? ?c] => destruct (update_level =? c)
         end; simpl;
    (split; [|split; [|split; [|split]]]);
    first [apply pre_incr_ulong | apply pre_decr_ulong | assumption].
Qed.

End UpdateStats.

Section UpdateStatsClaims.

Context (h : headers).

(** C1: on each of the five lifecycle events [update_stats] returns 0
    and changes exactly the counters the event names: [STAT_BADCONN]
    adds one to [num_badcons]; [STAT_OPEN] adds one to both [num_open]
    and [num_reqs] in the one call; [STAT_CLOSE] takes one from
    [num_open]; [STAT_REFUSE] adds one to [num_refused]; [STAT_DENIED]
    adds one to [num_denied]; every other field keeps its value.  The
    additions are those of [unsigned long]: exactly one more below
    [ULONG_MAX], exactly one less above zero. *)
Theorem update_stats_valid_levels (stats : stat_s) :
  labels_distinct h ->
  update_stats h (STAT_BADCONN h) stats =
    (0, {| num_reqs    := num_reqs stats;
           num_badcons := pre_incr h (num_badcons stats);
           num_open    := num_open stats;
           num_refused := num_refused stats;
           num_denied  := num_denied stats |}) /\
  update_stats h (STAT_OPEN h) stats =
    (0, {| num_reqs    := pre_incr h (num_reqs stats);
           num_badcons := num_badcons stats;
           num_open    := pre_incr h (num_open stats);
           num_refused := num_refused stats;
           num_denied  := num_denied stats |}) /\
  update_stats h (STAT_CLOSE h) stats =
    (0, {| num_reqs    := num_reqs stats;
           num_badcons := num_badcons stats;
           num_open    := pre_decr h (num_open stats);
           num_refused := num_refused stats;
           num_denied  := num_denied stats |}) /\
  update_stats h (STAT_REFUSE h) stats =
    (0, {| num_reqs    := num_reqs stats;
           num_badcons := num_badcons stats;
           num_open    := num_open stats;
           num_refused := pre_incr h (num_refused stats);
           num_denied  := num_denied stats |}) /\
  update_stats h (STAT_DENIED h) stats =
    (0, {| num_reqs    := num_reqs stats;
           num_badcons := num_badcons stats;
           num_open    := num_open stats;
           num_refused := num_refused stats;
           num_denied  := pre_incr h (num_denied stats) |}) /\
  (forall x, 0 <= x < ULONG_MAX h -> pre_incr h x = x + 1) /\
  (forall x, 0 < x <= ULONG_MAX h -> pre_decr h x = x - 1).
Proof.
  intros Hd.
  split; [unfold update_stats; now rewrite Z.eqb_refl|].
  split; [now apply update_stats_open|].
  split; [now apply update_stats_close|].
  apply labels_distinct_eqb in Hd.
  destruct Hd as (_ & _ & _ & E4 & E5 & E6 & E7 & E8 & E9 & E10).
  split; [unfold update_stats; now rewrite E4, E5, E6, Z.eqb_refl|].
  split; [unfold update_stats; now rewrite E7, E8, E9, E10, Z.eqb_refl|].
  split; intros x Hx.
  - now apply pre_incr_exact.
  - apply pre_decr_exact. unfold ULONG_MAX in Hx. lia.
Qed.

(** C7: a level that is none of the five [case] labels takes the
    [default] branch: [update_stats] returns -1 and the store it
    leaves is the store it found. *)
Theorem update_stats_invalid_level (update_level : Z) (stats : stat_s) :
  ~ In update_level (status_labels h) ->
  update_stats h update_level stats = (-1, stats).
Proof.
  unfold status_labels. simpl. intros Hn.
  unfold update_stats.
  repeat match goal with
         | |- context [update_level =? ?c] =>
             destruct (Z.eqb_spec update_level c) as [E|_];
             [exfalso; apply Hn; rewrite E; tauto|]
         end.
  reflexivity.
Qed.

Lemma count_level_cons_eq (l : Z) (levels : list Z) :
  count_level l (l :: levels) = count_level l levels + 1.
Proof.
  unfold count_level. rewrite count_occ_cons_eq by reflexivity. lia.
Qed.

Lemma count_level_cons_neq (l l' : Z) (levels : list Z) :
  l' <> l -> count_level l (l' :: levels) = count_level l levels.
Proof.
  intros Hn. unfold count_level. now rewrite count_occ_cons_neq.
Qed.

Lemma count_level_nonneg (l : Z) (levels : list Z) : 0 <= count_level l levels.
Proof. unfold count_level. lia. Qed.

(** The run from any store: the opens and closes add up modulo
    [ULONG_MAX + 1], and the other three counters stay. *)
Lemma update_all_open_close (levels : list Z) :
  labels_distinct h ->
  open_close_only h levels ->
  forall s,
    is_ulong h (num_open s) -> is_ulong h (num_reqs s) ->
    let s' := update_all h levels s in
    num_open s' =
      (num_open s + (count_level (STAT_OPEN h) levels
                     - count_level (STAT_CLOSE h) levels)) mod ulong_modulus h /\
    num_reqs s' = (num_reqs s + count_level (STAT_OPEN h) levels) mod ulong_modulus h /\
    num_badcons s' = num_badcons s /\
    num_refused s' = num_refused s /\
    num_denied s' = num_denied s.
Proof.
  intros Hd Hl.
  pose proof (labels_distinct_eqb h Hd) as (_ & _ & Hco & _).
  apply Z.eqb_neq in Hco.
  induction Hl as [|l levels [-> | ->] _ IH]; intros s Ho Hr; cbn zeta.
  - simpl. unfold count_level. simpl.
    rewrite !Z.add_0_r, !Z.mod_small by assumption. tauto.
  - simpl update_all. rewrite update_stats_open by assumption. simpl snd.
    rewrite count_level_cons_eq, count_level_cons_neq by congruence.
    match goal with
    | |- context [update_all h levels ?s1] =>
        destruct (IH s1) as (IHo & IHr & IHb & IHf & IHn);
        [apply pre_incr_ulong | apply pre_incr_ulong | simpl in IHo, IHr, IHb, IHf, IHn]
    end.
    rewrite IHo, IHr. unfold pre_incr.
    rewrite !Zplus_mod_idemp_l.
    repeat split; try assumption; f_equal; lia.
  - simpl update_all. rewrite update_stats_close by assumption. simpl snd.
    rewrite count_level_cons_eq, count_level_cons_neq by congruence.
    match goal with
    | |- context [update_all h levels ?s1] =>
        destruct (IH s1) as (IHo & IHr & IHb & IHf & IHn);
        [apply pre_decr_ulong | exact Hr | simpl in IHo, IHr, IHb, IHf, IHn]
    end.
    rewrite IHo, IHr. unfold pre_decr.
    rewrite !Zplus_mod_idemp_l.
    repeat split; try assumption; f_equal; lia.
Qed.

(** C2, as the code has it: after any run of [STAT_OPEN] and
    [STAT_CLOSE] calls on the fresh store, [num_open] is the number of
    opens less the number of closes and [num_reqs] the number of opens,
    both modulo [ULONG_MAX + 1]; the two equalities hold over the
    integers whenever the closes do not outnumber the opens and the
    opens fit an [unsigned long].  A close never changes [num_reqs], an
    open changes both, and the other three counters stay zero. *)
Theorem open_close_counts (levels : list Z) :
  labels_distinct h ->
  open_close_only h levels ->
  let s := update_all h levels stats_buf in
  let opens := count_level (STAT_OPEN h) levels in
  let closes := count_level (STAT_CLOSE h) levels in
  num_open s = (opens - closes) mod ulong_modulus h /\
  num_reqs s = opens mod ulong_modulus h /\
  num_badcons s = 0 /\ num_refused s = 0 /\ num_denied s = 0 /\
  (closes <= opens < ulong_modulus h -> open_close_exact h levels).
Proof.
  intros Hd Hl. cbv zeta.
  pose proof (ulong_modulus_pos h) as Hm.
  pose proof (count_level_nonneg (STAT_CLOSE h) levels) as Hc.
  assert (Hz : is_ulong h 0) by (unfold is_ulong; lia).
  destruct (update_all_open_close levels Hd Hl stats_buf Hz Hz)
    as (Ho & Hr & Hb & Hf & Hn).
  simpl in Ho, Hr, Hb, Hf, Hn.
  repeat (split; [assumption|]).
  intros Hfit. unfold open_close_exact. cbv zeta.
  rewrite Ho, Hr. split; apply Z.mod_small; lia.
Qed.

End UpdateStatsClaims.

Lemma update_stats_valid_levels_witness :
  labels_distinct lp64 /\
  update_stats lp64 (STAT_OPEN lp64)
    {| num_reqs := 7; num_badcons := 1; num_open := 2;
       num_refused := 0; num_denied := 3 |} =
    (0, {| num_reqs := 8; num_badcons := 1; num_open := 3;
           num_refused := 0; num_denied := 3 |}).
Proof.
  assert (Hd : labels_distinct lp64) by labels_tac.
  split; [exact Hd|].
  exact (proj1 (proj2 (update_stats_valid_levels lp64
           {| num_reqs := 7; num_badcons := 1; num_open := 2;
              num_refused := 0; num_denied := 3 |} Hd))).
Defined.

Lemma update_stats_invalid_level_witness :
  ~ In 5 (status_labels lp64) /\
  update_stats lp64 5 stats_buf = (-1, stats_buf).
Proof.
  assert (Hn : ~ In 5 (status_labels lp64)) by (simpl; intuition discriminate).
  split; [exact Hn|].
  exact (update_stats_invalid_level lp64 5 stats_buf Hn).
Defined.

Lemma open_close_counts_witness :
  labels_distinct lp64 /\
  open_close_only lp64 [STAT_OPEN lp64; STAT_OPEN lp64; STAT_CLOSE lp64] /\
  open_close_exact lp64 [STAT_OPEN lp64; STAT_OPEN lp64; STAT_CLOSE lp64].
Proof.
  assert (Hd : labels_distinct lp64) by labels_tac.
  assert (Hl : open_close_only lp64 [STAT_OPEN lp64; STAT_OPEN lp64; STAT_CLOSE lp64])
    by labels_tac.
  split; [exact Hd|]. split; [exact Hl|].
  apply (open_close_counts lp64 _ Hd Hl).
  vm_compute. split; [discriminate | reflexivity].
Defined.

(** C2 as the spec words it fails on the run of one [STAT_CLOSE]:
    [num_open] is then [ULONG_MAX], not -1. *)
Lemma open_close_exact_fails :
  labels_distinct lp64 /\
  open_close_only lp64 [STAT_CLOSE lp64] /\
  num_open (update_all lp64 [STAT_CLOSE lp64] stats_buf) = 18446744073709551615 /\
  count_level (STAT_OPEN lp64) [STAT_CLOSE lp64]
    - count_level (STAT_CLOSE lp64) [STAT_CLOSE lp64] = -1 /\
  ~ open_close_exact lp64 [STAT_CLOSE lp64].
Proof.
  split; [labels_tac|]. split; [labels_tac|].
  split; [reflexivity|]. split; [reflexivity|].
  unfold open_close_exact. cbv zeta. intros [Ho _]. vm_compute in Ho. discriminate.
Qed.

(** ** strstr and the registry scan *)

Local Open Scope string_scope.

Lemma prefix_iff (needle text : string) :
  prefix needle text = true <-> exists after, text = needle ++ after.
Proof.
  revert text. induction needle as [|a needle IH]; intros text.
  - simpl. destruct text; split; eauto.
  - destruct text as [|b text]; simpl.
    + split; [discriminate | intros [after E]; simpl in E; discriminate].
    + destruct (ascii_dec a b) as [->|Hab].
      * rewrite IH. split; intros [after E]; exists after; simpl in *; congruence.
      * split; [discriminate | intros [after E]; simpl in E; congruence].
Qed.

Lemma strstr_at_nil (needle : string) :
  strstr_at EmptyString needle =
    if prefix needle EmptyString then Some O else None.
Proof. reflexivity. Qed.

Lemma strstr_at_cons (c : ascii) (text needle : string) :
  strstr_at (String c text) needle =
    if prefix needle (String c text) then Some O
    else option_map S (strstr_at text needle).
Proof. reflexivity. Qed.

Lemma strstr_at_found (text needle : string) (i : nat) :
  strstr_at text needle = Some i -> occurs_in needle text.
Proof.
  revert i. induction text as [|c text IH]; intros i.
  - rewrite strstr_at_nil.
    destruct (prefix needle EmptyString) eqn:E; [|discriminate].
    intros _. apply prefix_iff in E. destruct E as [after E].
    exists EmptyString, after. exact E.
  - rewrite strstr_at_cons.
    destruct (prefix needle (String c text)) eqn:E.
    + intros _. apply prefix_iff in E. destruct E as [after E].
      exists EmptyString, after. exact E.
    + destruct (strstr_at text needle) as [j|]; [|discriminate].
      intros _. destruct (IH j eq_refl) as (before & after & ->).
      exists (String c before), after. reflexivity.
Qed.

Lemma strstr_at_occurs (text needle : string) :
  occurs_in needle text -> exists i, strstr_at text needle = Some i.
Proof.
  intros (before & after & ->).
  induction before as [|c before IH].
  - assert (E : prefix needle (needle ++ after) = true)
      by (apply prefix_iff; eauto).
    change (EmptyString ++ needle ++ after) with (needle ++ after).
    destruct (needle ++ after);
      [rewrite strstr_at_nil | rewrite strstr_at_cons]; rewrite E; eauto.
  - change (String c before ++ needle ++ after)
      with (String c (before ++ needle ++ after)).
    rewrite strstr_at_cons. destruct IH as [i ->].
    destruct (prefix needle (String c (before ++ needle ++ after))); simpl; eauto.
Qed.

(** [strstr] returns a non-null pointer exactly when the needle occurs
    in the haystack. *)
Lemma strstr_at_none (text needle : string) :
  strstr_at text needle = None <-> ~ occurs_in needle text.
Proof.
  split.
  - intros E Ho. apply strstr_at_occurs in Ho. destruct Ho as [i Hi]. congruence.
  - intros Hn. destruct (strstr_at text needle) as [i|] eqn:E; [|reflexivity].
    exfalso. eauto using strstr_at_found.
Qed.

Lemma type_scan_match (accept : string) (stat_types : orderedmap) (f : string) :
  type_scan (Some accept) stat_types = Ok (Some f) <->
  first_match accept stat_types f.
Proof.
  split.
  - induction stat_types as [|[k v] rest IH]; simpl; [discriminate|].
    destruct (strstr_at accept k) as [i|] eqn:E.
    + intros [= <-]. exists [], k, rest.
      split; [reflexivity|]. split; [eauto using strstr_at_found | constructor].
    + intros Hs. destruct (IH Hs) as (earlier & k' & later & -> & Hk & Hn).
      exists ((k, v) :: earlier), k', later.
      split; [reflexivity|]. split; [assumption|].
      constructor; [now apply strstr_at_none | assumption].
  - intros (earlier & k & later & -> & Hk & Hn).
    induction Hn as [|[k0 v0] earlier Hk0 _ IH]; simpl.
    + destruct (strstr_at_occurs _ _ Hk) as [i ->]. reflexivity.
    + simpl in Hk0. apply strstr_at_none in Hk0. rewrite Hk0. exact IH.
Qed.

Lemma type_scan_no_match (accept : string) (stat_types : orderedmap) :
  type_scan (Some accept) stat_types = Ok None <-> no_match accept stat_types.
Proof.
  unfold no_match. induction stat_types as [|[k v] rest IH]; simpl.
  - split; [constructor | reflexivity].
  - destruct (strstr_at accept k) as [i|] eqn:E.
    + split; [discriminate|]. intros Hn. inversion_clear Hn as [|? ? Hk _].
      simpl in Hk. exfalso. eauto using strstr_at_found.
    + rewrite IH. split.
      * intros Hn. constructor; [now apply strstr_at_none | assumption].
      * intros Hn. now inversion_clear Hn.
Qed.

(** With a header to search, the scan always returns. *)
Lemma type_scan_defined (accept : string) (stat_types : orderedmap) :
  type_scan (Some accept) stat_types <> Undefined.
Proof.
  induction stat_types as [|[k v] rest IH]; simpl; [discriminate|].
  destruct (strstr_at accept k); [discriminate | exact IH].
Qed.

(** Without one, the first entry of the registry is already one too many. *)
Lemma type_scan_null (stat_types : orderedmap) :
  stat_types <> [] -> type_scan None stat_types = Undefined.
Proof.
  destruct stat_types as [|[k v] rest]; [congruence | reflexivity].
Qed.

Lemma skipn_nth_error {A : Type} (l : list A) (i : nat) (x : A) :
  nth_error l i = Some x -> skipn i l = x :: skipn (S i) l.
Proof.
  revert i. induction l as [|y l IH]; intros [|i]; simpl; try discriminate.
  - now intros [= ->].
  - intros Hx. now rewrite (IH i Hx).
Qed.

(** The loop on the iterator ends within one turn per remaining entry
    and one more, with the result of the scan of the remaining
    entries; from position 0 that is the scan of the registry. *)
Lemma type_loop_scan (fuel : nat) (accept_header : option string)
    (stat_types : orderedmap) (iter : nat) :
  (List.length stat_types - iter < fuel)%nat ->
  type_loop fuel accept_header stat_types iter =
    Some (type_scan accept_header (skipn iter stat_types)).
Proof.
  revert iter. induction fuel as [|fuel IH]; intros iter Hf; [lia|].
  simpl. unfold orderedmap_next.
  destruct (nth_error stat_types iter) as [[k v]|] eqn:E.
  - rewrite (skipn_nth_error _ _ _ E). simpl.
    assert (Hi : (iter < List.length stat_types)%nat)
      by (apply nth_error_Some; congruence).
    destruct (strstr accept_header k) as [[i|]|]; simpl; try reflexivity.
    apply IH. lia.
  - apply nth_error_None in E. now rewrite skipn_all2.
Qed.

Lemma type_loop_total (accept_header : option string) (stat_types : orderedmap) :
  type_loop (S (List.length stat_types)) accept_header stat_types 0 =
    Some (type_scan accept_header stat_types).
Proof. apply (type_loop_scan _ _ _ 0%nat). lia. Qed.

(** ** Selection of the statistics page *)

(** C3: with an Accept header to search, the loop over the iterator
    ends and is the scan that walks the registry in insertion order
    and selects the template of the first entry whose content type
    occurs anywhere in the header, whatever [config->statpage] is; it
    selects nothing exactly when no entry occurs.  With the registry
    [text/html -> T1, application/json -> T2] and the header
    [text/html,application/json;q=0.9] both content types occur and
    the selection is [T1]. *)
Theorem first_match_wins (accept : string)
    (request_headers stat_types : orderedmap) (statpage : option string) :
  orderedmap_find request_headers "accept" = Some accept ->
  type_loop (S (List.length stat_types)) (Some accept) stat_types 0 =
    Some (type_scan (Some accept) stat_types) /\
  (forall f, type_scan (Some accept) stat_types = Ok (Some f) <->
             first_match accept stat_types f) /\
  (type_scan (Some accept) stat_types = Ok None <-> no_match accept stat_types) /\
  (forall f, first_match accept stat_types f ->
             select_template request_headers stat_types statpage = Ok (Some f)) /\
  (forall T1 T2,
     let preference := "text/html,application/json;q=0.9" in
     occurs_in "text/html" preference /\
     occurs_in "application/json" preference /\
     select_template [("accept", preference)]
       [("text/html", T1); ("application/json", T2)] statpage = Ok (Some T1)).
Proof.
  intros Ha.
  split; [apply type_loop_total|].
  split; [intros f; apply type_scan_match|].
  split; [apply type_scan_no_match|].
  split.
  - intros f Hf. apply type_scan_match in Hf.
    unfold select_template. rewrite Ha, Hf. reflexivity.
  - intros T1 T2 preference.
    split; [exists EmptyString, ",application/json;q=0.9"; reflexivity|].
    split; [exists "text/html,", ";q=0.9"; reflexivity|].
    reflexivity.
Qed.

Lemma first_match_wins_witness :
  orderedmap_find [("host", "localhost"); ("accept", "application/json, text/html")]
    "accept" = Some "application/json, text/html" /\
  select_template [("host", "localhost"); ("accept", "application/json, text/html")]
    init_stats (Some "stats.html") = Ok (Some "data/templates/stats.html").
Proof.
  split; [reflexivity|].
  apply (proj2 (first_match_wins "application/json, text/html"
           [("host", "localhost"); ("accept", "application/json, text/html")]
           init_stats (Some "stats.html") eq_refl)).
  exists [], "text/html", [("application/json", "data/templates/stats.json")].
  split; [reflexivity|]. split; [|constructor].
  exists "application/json, ", EmptyString. reflexivity.
Defined.

Section ShowstatsClaims.

Context (h : headers).

(** The built-in page block, by cases on the world. *)
Lemma show_minimal_cases (stats : stat_s) (w : world) :
  let page := snprintf (MAXBUFFSIZE h) (minimal_page_text h stats) in
  let sent := send_http_message_r w 200 "OK" page in
  show_minimal h stats w =
    if safemalloc_r w (MAXBUFFSIZE h)
    then ((if (sent <? 0)%Z then -1 else 0)%Z,
          [safemalloc (MAXBUFFSIZE h) true;
           send_http_message 200 "OK" page sent;
           safefree;
           pthread_mutex_unlock stats_file_lock])
    else ((-1)%Z,
          [safemalloc (MAXBUFFSIZE h) false;
           pthread_mutex_unlock stats_file_lock]).
Proof.
  cbv zeta. unfold show_minimal.
  destruct (safemalloc_r w (MAXBUFFSIZE h)); [|reflexivity].
  now destruct (_ <? 0)%Z.
Qed.

Lemma show_minimal_ret (stats : stat_s) (w : world) :
  let page := snprintf (MAXBUFFSIZE h) (minimal_page_text h stats) in
  let ret := fst (show_minimal h stats w) in
  (ret = 0 \/ ret = -1)%Z /\
  (ret = 0%Z <->
     safemalloc_r w (MAXBUFFSIZE h) = true /\
     (0 <= send_http_message_r w 200 "OK" page)%Z) /\
  (ret = (-1)%Z <->
     safemalloc_r w (MAXBUFFSIZE h) = false \/
     (send_http_message_r w 200 "OK" page < 0)%Z).
Proof.
  cbv zeta. rewrite show_minimal_cases. cbv zeta.
  destruct (safemalloc_r w (MAXBUFFSIZE h)); simpl.
  - destruct (Z.ltb_spec (send_http_message_r w 200 "OK"
                (snprintf (MAXBUFFSIZE h) (minimal_page_text h stats))) 0);
      intuition (try discriminate; try lia).
  - intuition (try discriminate; try lia).
Qed.

Lemma show_minimal_no_fopen (stats : stat_s) (w : world) path stream :
  ~ In (fopen path stream) (snd (show_minimal h stats w)).
Proof.
  rewrite show_minimal_cases. cbv zeta.
  destruct (safemalloc_r w (MAXBUFFSIZE h)); simpl; intuition discriminate.
Qed.

(** C4: when the Accept header is there and no registry entry occurs in
    it, the selected template is [config->statpage]: that path when one
    is configured, and it is the file showstats goes on to open; no
    template when none is configured, and showstats then opens no file
    and runs the built-in page block, whose one message, once its
    buffer is allocated, is the built-in page sent as 200 OK. *)
Theorem fallback_selection (accept : string)
    (request_headers stat_types : orderedmap) (statpage : option string)
    (stats : stat_s) (w : world) :
  orderedmap_find request_headers "accept" = Some accept ->
  no_match accept stat_types ->
  select_template request_headers stat_types statpage = Ok statpage /\
  (forall F, statpage = Some F ->
     exists ret calls,
       showstats h request_headers stat_types statpage stats w =
         Ok (ret, pthread_mutex_lock stats_file_lock
                    :: fopen F (fopen_r w F) :: calls)) /\
  (statpage = None ->
     exists ret calls,
       showstats h request_headers stat_types statpage stats w =
         Ok (ret, pthread_mutex_lock stats_file_lock :: calls) /\
       show_minimal h stats w = (ret, calls) /\
       (forall path stream, ~ In (fopen path stream) calls) /\
       (safemalloc_r w (MAXBUFFSIZE h) = true ->
        exists sent,
          calls = [safemalloc (MAXBUFFSIZE h) true;
                   send_http_message 200 "OK"
                     (snprintf (MAXBUFFSIZE h) (minimal_page_text h stats)) sent;
                   safefree;
                   pthread_mutex_unlock stats_file_lock])).
Proof.
  intros Ha Hn. apply type_scan_no_match in Hn.
  assert (Hs : select_template request_headers stat_types statpage = Ok statpage).
  { unfold select_template. rewrite Ha, Hn. simpl. now destruct statpage. }
  split; [exact Hs|]. split.
  - intros F ->. unfold showstats. rewrite Hs. simpl.
    destruct (fopen_r w F) as [statfile|].
    + destruct (show_template statfile stats w) as [ret calls]. eauto.
    + destruct (show_minimal h stats w) as [ret calls]. eauto.
  - intros ->. unfold showstats. rewrite Hs. simpl.
    pose proof (show_minimal_no_fopen stats w) as Hf.
    pose proof (show_minimal_cases stats w) as Hc. cbv zeta in Hc.
    destruct (show_minimal h stats w) as [ret calls]. simpl in Hf.
    exists ret, calls.
    split; [reflexivity|]. split; [reflexivity|]. split; [exact Hf|].
    intros Hroom. rewrite Hroom in Hc. injection Hc as _ ->. eauto.
Qed.

End ShowstatsClaims.

Lemma fallback_selection_witness :
  orderedmap_find [("accept", "text/plain")] "accept" = Some "text/plain" /\
  no_match "text/plain" init_stats /\
  select_template [("accept", "text/plain")] init_stats (Some "F") = Ok (Some "F").
Proof.
  assert (Hn : no_match "text/plain" init_stats)
    by (apply type_scan_no_match; reflexivity).
  split; [reflexivity|]. split; [exact Hn|].
  exact (proj1 (fallback_selection lp64 "text/plain" [("accept", "text/plain")]
                  init_stats (Some "F") stats_buf (a_world true true 0 0 0)
                  eq_refl Hn)).
Defined.

(** ** What showstats returns *)

Section ShowstatsReturns.

Context (h : headers).

(** When the built-in page block runs, either because no template was
    selected or because the selected one did not open. *)
Lemma showstats_minimal (request_headers stat_types : orderedmap)
    (statpage : option string) (stats : stat_s) (w : world)
    (template : option string) :
  select_template request_headers stat_types statpage = Ok template ->
  match template with
  | None => True
  | Some path => fopen_r w path = None
  end ->
  showstats h request_headers stat_types statpage stats w =
    Ok (fst (show_minimal h stats w),
        (pthread_mutex_lock stats_file_lock
           :: match template with
              | None => []
              | Some path => [fopen path None]
              end ++ snd (show_minimal h stats w))%list).
Proof.
  intros Hs Ho. unfold showstats. rewrite Hs. simpl.
  destruct template as [path|].
  - rewrite Ho. now destruct (show_minimal h stats w).
  - now destruct (show_minimal h stats w).
Qed.


(** C6, as the code has it: on the built-in page branch, taken when no
    template is selected or when the selected one does not open,
    showstats returns -1 exactly when the page buffer cannot be
    allocated or [send_http_message] reports a failure, and 0
    otherwise; a template that does not open is absorbed. *)
Theorem minimal_page_failure (request_headers stat_types : orderedmap)
    (statpage : option string) (stats : stat_s) (w : world)
    (template : option string) :
  select_template request_headers stat_types statpage = Ok template ->
  match template with
  | None => True
  | Some path => fopen_r w path = None
  end ->
  let page := snprintf (MAXBUFFSIZE h) (minimal_page_text h stats) in
  exists ret calls,
    showstats h request_headers stat_types statpage stats w = Ok (ret, calls) /\
    (ret = 0 \/ ret = -1)%Z /\
    (ret = (-1)%Z <->
       safemalloc_r w (MAXBUFFSIZE h) = false \/
       (send_http_message_r w 200 "OK" page < 0)%Z) /\
    (ret = 0%Z <->
       safemalloc_r w (MAXBUFFSIZE h) = true /\
       (0 <= send_http_message_r w 200 "OK" page)%Z).
Proof.
  intros Hs Ho page.
  eexists _, _. split; [exact (showstats_minimal _ _ _ stats w template Hs Ho)|].
  pose proof (show_minimal_ret h stats w) as (H01 & H0 & H1).
  cbv zeta in H01, H0, H1. tauto.
Qed.

(** With no Accept header among the request headers and a registry
    that has an entry, line 91 hands [strstr] a null pointer. *)
Lemma absent_accept (request_headers stat_types : orderedmap)
    (statpage : option string) (stats : stat_s) (w : world) :
  orderedmap_find request_headers "accept" = None ->
  stat_types <> [] ->
  select_template request_headers stat_types statpage = Undefined /\
  showstats h request_headers stat_types statpage stats w = Undefined.
Proof.
  intros Ha Hne.
  assert (Hs : select_template request_headers stat_types statpage = Undefined).
  { unfold select_template. rewrite Ha, type_scan_null by assumption. reflexivity. }
  split; [exact Hs|]. unfold showstats. now rewrite Hs.
Qed.

(** C8, on the code: a request without an Accept header does not reach
    the fallback chain.  [orderedmap_find] returns the null pointer and
    the first turn of the scan hands it to [strstr]: with any registry
    that has an entry, and so with the one [init_stats] builds,
    whatever [config->statpage] is, the selection has no defined
    result, and neither has showstats.  It is the absent header that
    does it: with an Accept header the scan always returns. *)
Theorem absent_accept_undefined (statpage : option string) (stats : stat_s)
    (w : world) :
  orderedmap_find [] "accept" = None /\
  orderedmap_find [("host", "localhost"); ("user-agent", "curl/8.5.0")]
    "accept" = None /\
  select_template [] init_stats statpage = Undefined /\
  showstats h [] init_stats statpage stats w = Undefined /\
  showstats h [("host", "localhost"); ("user-agent", "curl/8.5.0")]
    init_stats statpage stats w = Undefined /\
  (forall request_headers stat_types,
     orderedmap_find request_headers "accept" = None ->
     stat_types <> [] ->
     type_loop (S (List.length stat_types)) None stat_types 0 = Some Undefined /\
     select_template request_headers stat_types statpage = Undefined /\
     showstats h request_headers stat_types statpage stats w = Undefined) /\
  (forall request_headers stat_types accept,
     orderedmap_find request_headers "accept" = Some accept ->
     showstats h request_headers stat_types statpage stats w <> Undefined).
Proof.
  do 5 (split; [reflexivity|]). split.
  - intros request_headers stat_types Ha Hne.
    split; [|now apply absent_accept].
    rewrite type_loop_total. now rewrite type_scan_null.
  - intros request_headers stat_types accept Ha.
    unfold showstats, select_template. rewrite Ha.
    pose proof (type_scan_defined accept stat_types) as Hdef.
    destruct (type_scan (Some accept) stat_types); [discriminate | congruence].
Qed.

End ShowstatsReturns.


(** The failure of the transmission is passed on from the degraded
    run as from any other: when the template does not open and
    [send_http_message] reports a failure, showstats returns -1. *)
Lemma unopenable_template_can_fail :
  select_template [("accept", "text/html")] init_stats None =
    Ok (Some "data/templates/stats.html") /\
  fopen_r (a_world false true (-1) 0 0) "data/templates/stats.html" = None /\
  (exists calls,
     showstats lp64 [("accept", "text/html")] init_stats None stats_buf
       (a_world false true (-1) 0 0) = Ok ((-1)%Z, calls)) /\
  ~ returns_success
      (showstats lp64 [("accept", "text/html")] init_stats None stats_buf
         (a_world false true (-1) 0 0)).
Proof.
  split; [reflexivity|]. split; [reflexivity|].
  split; [eexists; reflexivity|].
  vm_compute. discriminate.
Qed.

Lemma minimal_page_failure_witness :
  select_template [("accept", "text/plain")] init_stats None = Ok None /\
  exists calls,
    showstats lp64 [("accept", "text/plain")] init_stats None stats_buf
      (a_world true false 0 0 0) = Ok ((-1)%Z, calls).
Proof.
  split; [reflexivity|].
  destruct (minimal_page_failure lp64 [("accept", "text/plain")]
              init_stats None stats_buf (a_world true false 0 0 0)
              None eq_refl I)
    as (ret & calls & Hrun & _ & Hfail & _).
  exists calls. rewrite Hrun.
  rewrite (proj2 Hfail (or_introl eq_refl)). reflexivity.
Defined.

(** C6 as the spec words it fails both ways.  With no room for the page
    buffer showstats returns -1 and no sender was called; with the
    template open and both senders of the template path reporting a
    failure it returns 0. *)
Lemma failure_is_not_send_failure :
  ~ fails_iff_send_fails
      (showstats lp64 [("accept", "text/plain")] init_stats None stats_buf
         (a_world true false 0 0 0)) /\
  showstats lp64 [("accept", "text/plain")] init_stats None stats_buf
    (a_world true false 0 0 0) =
    Ok ((-1)%Z, [pthread_mutex_lock stats_file_lock;
                 safemalloc 98304 false;
                 pthread_mutex_unlock stats_file_lock]) /\
  ~ fails_iff_send_fails
      (showstats lp64 [("accept", "text/html")] init_stats None stats_buf
         (a_world true true 0 (-1) (-1))) /\
  (exists calls,
     showstats lp64 [("accept", "text/html")] init_stats None stats_buf
       (a_world true true 0 (-1) (-1)) = Ok (0%Z, calls) /\
     In (send_http_headers 200 "Statistic requested" EmptyString (-1)) calls /\
     In (send_html_file 3%nat (-1)) calls).
Proof.
  split; [vm_compute; discriminate|].
  split; [reflexivity|].
  split; [vm_compute; discriminate|].
  eexists. split; [reflexivity|]. simpl. tauto.
Qed.

(** ** Formatting the counters *)

Lemma append_assoc (a b c : string) : (a ++ b) ++ c = a ++ b ++ c.
Proof. induction a as [|x a IH]; simpl; [reflexivity | now rewrite IH]. Qed.

Lemma occurs_in_append (needle a text : string) :
  occurs_in needle text -> occurs_in needle (a ++ text).
Proof.
  intros (before & after & ->). exists (a ++ before), after.
  now rewrite append_assoc.
Qed.

Lemma occurs_in_head (a b c rest : string) :
  occurs_in (a ++ b ++ c) (a ++ b ++ c ++ rest).
Proof.
  exists EmptyString, rest. simpl. now rewrite !append_assoc.
Qed.

Lemma length_substring (m : nat) (s : string) :
  String.length (substring 0 m s) = Nat.min m (String.length s).
Proof.
  revert s. induction m as [|m IH]; intros [|c s]; simpl; try reflexivity.
  now rewrite IH.
Qed.

Lemma substring_all (m : nat) (s : string) :
  (String.length s <= m)%nat -> substring 0 m s = s.
Proof.
  revert s. induction m as [|m IH]; intros [|c s]; simpl; intros Hl;
    try reflexivity; try lia.
  rewrite IH by lia. reflexivity.
Qed.

(** [snprintf] into a buffer the text fits leaves the text whole. *)
Lemma snprintf_fits (size : Z) (text : string) :
  (Z.of_nat (String.length text) < size)%Z -> snprintf size text = text.
Proof.
  intros Hl. unfold snprintf.
  destruct (Z.ltb_spec (Z.of_nat (String.length text)) size); [reflexivity | lia].
Qed.

(** The 16-byte buffers of lines 72 and 80-84 hold the first 15
    characters. *)
Lemma snprintf_16 (text : string) :
  snprintf 16 text = substring 0 15 text.
Proof.
  unfold snprintf.
  destruct (Z.ltb_spec (Z.of_nat (String.length text)) 16); [|reflexivity].
  symmetry. apply substring_all. lia.
Qed.

Lemma substring_15_whole (text : string) :
  substring 0 15 text = text <-> (String.length text <= 15)%nat.
Proof.
  split.
  - intros E. pose proof (length_substring 15 text) as Hl.
    rewrite E in Hl. lia.
  - apply substring_all.
Qed.

(** [%lu] writes the numeral of its argument: reading it back gives
    the argument. *)
Lemma parse_fmt_lu (x : Z) : (0 <= x)%Z -> parse_lu (fmt_lu x) = Some x.
Proof.
  intros Hx. unfold parse_lu, fmt_lu.
  rewrite NilZero.usu.
  - simpl. now rewrite DecimalN.Unsigned.of_to, Z2N.id.
  - destruct (Z.to_N x) as [|p]; simpl; [discriminate|].
    apply DecimalPos.Unsigned.to_uint_nonnil.
Qed.

Lemma minimal_page_open_line (h : headers) (stats : stat_s) :
  occurs_in ("Number of open connections: " ++ fmt_lu (num_open stats) ++ "<br />")
    (minimal_page_text h stats).
Proof.
  unfold minimal_page_text.
  repeat first [ apply occurs_in_head | apply occurs_in_append ].
Qed.

Section CloseAtZero.

Context (h : headers).

(** C10, as the code has it: the counters are [unsigned long], so
    [update_stats (STAT_CLOSE)] on a store whose [num_open] is 0
    neither fails nor stops at zero: it returns 0 and leaves
    [num_open = ULONG_MAX], the other counters as they were.  A later
    showstats formats that value with [%lu].  The built-in page, when
    its buffer is allocated and holds the text, carries the whole
    numeral of [ULONG_MAX] in its line of open connections.  On the
    template path the variable [opens] is the numeral cut to the 15
    characters its 16-byte buffer holds, which is the whole numeral
    exactly when it has at most 15 digits. *)
Theorem close_at_zero_wraps (stats : stat_s) :
  labels_distinct h ->
  num_open stats = 0%Z ->
  let after := {| num_reqs    := num_reqs stats;
                  num_badcons := num_badcons stats;
                  num_open    := ULONG_MAX h;
                  num_refused := num_refused stats;
                  num_denied  := num_denied stats |} in
  let digits := fmt_lu (ULONG_MAX h) in
  update_stats h (STAT_CLOSE h) stats = (0%Z, after) /\
  parse_lu digits = Some (ULONG_MAX h) /\
  occurs_in ("Number of open connections: " ++ digits ++ "<br />")
    (minimal_page_text h after) /\
  (forall request_headers stat_types statpage w template,
     select_template request_headers stat_types statpage = Ok template ->
     match template with
     | None => True
     | Some path => fopen_r w path = None
     end ->
     safemalloc_r w (MAXBUFFSIZE h) = true ->
     (Z.of_nat (String.length (minimal_page_text h after)) < MAXBUFFSIZE h)%Z ->
     exists ret sent calls,
       showstats h request_headers stat_types statpage after w = Ok (ret, calls) /\
       In (send_http_message 200 "OK" (minimal_page_text h after) sent) calls) /\
  (forall request_headers stat_types statpage w path statfile,
     select_template request_headers stat_types statpage = Ok (Some path) ->
     fopen_r w path = Some statfile ->
     exists calls,
       showstats h request_headers stat_types statpage after w =
         Ok (0%Z, pthread_mutex_lock stats_file_lock
                    :: fopen path (Some statfile)
                    :: add_error_variable "opens" (substring 0 15 digits)
                    :: calls)) /\
  (substring 0 15 digits = digits <-> (String.length digits <= 15)%nat).
Proof.
  intros Hd Hz after digits.
  pose proof (ulong_modulus_gt_1 h) as Hm.
  split.
  { rewrite update_stats_close by assumption.
    rewrite Hz, pre_decr_zero. reflexivity. }
  split; [apply parse_fmt_lu; unfold ULONG_MAX; lia|].
  split; [exact (minimal_page_open_line h after)|].
  split; [|split].
  - intros request_headers stat_types statpage w template Hs Ho Hroom Hfit.
    rewrite (showstats_minimal h _ _ _ after w template Hs Ho).
    rewrite show_minimal_cases. cbv zeta. rewrite Hroom.
    rewrite snprintf_fits by assumption.
    eexists _, _, _. split; [reflexivity|].
    simpl. destruct template; simpl; eauto.
  - intros request_headers stat_types statpage w path statfile Hs Ho.
    unfold showstats. rewrite Hs. simpl. rewrite Ho.
    unfold show_template. rewrite !snprintf_16. simpl num_open.
    eexists. reflexivity.
  - apply substring_15_whole.
Qed.

End CloseAtZero.

Lemma close_at_zero_wraps_witness :
  labels_distinct ilp32 /\
  num_open stats_buf = 0%Z /\
  update_stats ilp32 (STAT_CLOSE ilp32) stats_buf =
    (0%Z, {| num_reqs := 0; num_badcons := 0; num_open := 4294967295;
             num_refused := 0; num_denied := 0 |}) /\
  substring 0 15 (fmt_lu (ULONG_MAX ilp32)) = "4294967295".
Proof.
  assert (Hd : labels_distinct ilp32) by labels_tac.
  split; [exact Hd|]. split; [reflexivity|].
  destruct (close_at_zero_wraps ilp32 stats_buf Hd eq_refl)
    as (Hupd & _ & _ & _ & _ & Hwhole).
  split; [exact Hupd|].
  rewrite (proj2 Hwhole); [reflexivity | vm_compute; lia].
Defined.

(** C10 as worded fails on an LP64 build on the template path: after
    the close on the fresh store [num_open] is 18446744073709551615,
    and the variable [opens] handed to the template is its first 15
    digits. *)
Lemma wrapped_opens_truncated :
  let after := {| num_reqs := 0; num_badcons := 0;
                  num_open := 18446744073709551615;
                  num_refused := 0; num_denied := 0 |} in
  update_stats lp64 (STAT_CLOSE lp64) stats_buf = (0%Z, after) /\
  fmt_lu (num_open after) = "18446744073709551615" /\
  (exists calls,
     showstats lp64 [("accept", "text/html")] init_stats None after
       (a_world true true 0 0 0) =
       Ok (0%Z, pthread_mutex_lock stats_file_lock
                  :: fopen "data/templates/stats.html" (Some 3%nat)
                  :: add_error_variable "opens" "184467440737095"
                  :: calls)) /\
  "184467440737095" <> fmt_lu (num_open after).
Proof.
  cbv zeta.
  split; [reflexivity|]. split; [reflexivity|].
  split; [eexists; reflexivity|].
  vm_compute. discriminate.
Qed.

(** ** Locks *)

Section Locks.

Context (h : headers).

(** A thread that asks for a mutex another thread holds does not move. *)
Lemma step_lock_held (m : machine) (i j : nat) (t : thread) (mx : mutex)
    (rest : list op) :
  nth_error (pool m) i = Some t ->
  todo t = op_lock mx :: rest ->
  owner m mx = Some j ->
  step h m i = None.
Proof.
  intros Ht Hc Ho. unfold step. now rewrite Ht, Hc, Ho.
Qed.

(** X13: run alone, the accesses of [update_stats_ops] leave the store
    [update_stats] returns, end, and leave the mutex free, on the
    [default] branch as on the five others. *)
Lemma update_stats_ops_alone (update_level : Z) (stats : stat_s) :
  exists m,
    run h (repeat O (List.length (update_stats_ops h update_level)))
      (boot stats [update_stats_ops h update_level]) = Some m /\
    shared m = snd (update_stats h update_level stats) /\
    owner m stats_update_lock = None /\
    map todo (pool m) = [[]].
Proof.
  unfold update_stats_ops, update_stats.
  repeat match goal with
         | |- context [(update_level =? ?c)%Z] =>
             destruct (update_level =? c)%Z;
             [eexists; split; [reflexivity|]; simpl;
              destruct stats; repeat split|]
         end.
  eexists; split; [reflexivity|]; simpl; destruct stats; repeat split.
Qed.

(** [update_stats] brackets its writes with [stats_update_lock];
    showstats never takes that mutex, and its five reads of lines
    80-84 come before it takes any. *)
Lemma lock_discipline (update_level : Z) (minimal : bool) :
  hd_error (update_stats_ops h update_level) = Some (op_lock stats_update_lock) /\
  last (update_stats_ops h update_level) (op_read f_num_open)
    = op_unlock stats_update_lock /\
  ~ In (op_lock stats_update_lock) (showstats_ops minimal) /\
  firstn 5 (showstats_ops minimal) =
    [op_read f_num_open; op_read f_num_reqs; op_read f_num_badcons;
     op_read f_num_denied; op_read f_num_refused].
Proof.
  split; [reflexivity|]. split.
  { unfold update_stats_ops.
    repeat match goal with
           | |- context [(update_level =? ?c)%Z] =>
               destruct (update_level =? c)%Z; [reflexivity|]
           end.
    reflexivity. }
  split; [|reflexivity].
  destruct minimal; simpl; intuition discriminate.
Qed.

End Locks.

(** C9, on the code: showstats reads the counters without taking
    [stats_update_lock], the mutex [update_stats] holds while it
    writes them; the one mutex it takes, [stats_file_lock], is another
    and is taken after the reads.  So the reads can fall between the
    two increments of one [STAT_OPEN]: from the fresh store there is a
    schedule of an [update_stats (STAT_OPEN)] thread and a showstats
    thread, both run to their end, in which showstats sees
    [num_open = 1] with [num_reqs = 0], while the store ends with
    both at 1. *)
Theorem showstats_torn_read :
  (forall minimal, ~ In (op_lock stats_update_lock) (showstats_ops minimal)) /\
  (forall minimal rest, showstats_ops minimal <> op_lock stats_update_lock :: rest) /\
  exists schedule m reader,
    run lp64 schedule
      (boot stats_buf [update_stats_ops lp64 (STAT_OPEN lp64); showstats_ops false])
      = Some m /\
    map todo (pool m) = [[]; []] /\
    nth_error (pool m) 1 = Some reader /\
    seen reader = [(f_num_open, 1%Z); (f_num_reqs, 0%Z); (f_num_badcons, 0%Z);
                   (f_num_denied, 0%Z); (f_num_refused, 0%Z)] /\
    shared m = {| num_reqs := 1; num_badcons := 0; num_open := 1;
                  num_refused := 0; num_denied := 0 |}.
Proof.
  split; [intros minimal; apply (lock_discipline lp64 0%Z minimal)|].
  split; [intros [|] rest; discriminate|].
  exists [0; 0; 1; 1; 1; 1; 1; 0; 0; 1; 1]%nat.
  eexists. eexists.
  split; [vm_compute; reflexivity|].
  split; [reflexivity|]. split; [reflexivity|]. split; reflexivity.
Qed.

(** Two [update_stats] threads exclude each other: once the first
    holds [stats_update_lock] the second cannot enter. *)
Example updaters_exclude :
  run lp64 [0; 1]%nat
    (boot stats_buf [update_stats_ops lp64 (STAT_OPEN lp64);
                     update_stats_ops lp64 (STAT_CLOSE lp64)]) = None.
Proof. reflexivity. Qed.

(** The built-in page of an LP64 build after a close on the fresh
    store: the line of open connections carries all 20 digits. *)
Example minimal_page_wrapped_lp64 :
  let after := {| num_reqs := 0; num_badcons := 0;
                  num_open := 18446744073709551615;
                  num_refused := 0; num_denied := 0 |} in
  exists body,
    showstats lp64 [("accept", "text/plain")] init_stats None after
      (a_world true true 0 0 0) =
      Ok (0%Z, [pthread_mutex_lock stats_file_lock;
                safemalloc 98304 true;
                send_http_message 200 "OK" body 0;
                safefree;
                pthread_mutex_unlock stats_file_lock]) /\
    String.length body = 572%nat /\
    strstr_at body "Number of open connections: 18446744073709551615<br />"
      = Some 283%nat.
Proof.
  cbv zeta. eexists. split; [vm_compute; reflexivity|].
  split; vm_compute; reflexivity.
Qed.

(** ** Runs of update_stats *)

Local Open Scope Z_scope.

Section UpdateStatsRuns.

Context (h : headers).

Lemma pre_incr_decr (x : Z) : pre_incr h (pre_decr h x) = x mod ulong_modulus h.
Proof.
  unfold pre_incr, pre_decr. rewrite Zplus_mod_idemp_l. f_equal. lia.
Qed.

Lemma pre_decr_incr (x : Z) : pre_decr h (pre_incr h x) = x mod ulong_modulus h.
Proof.
  unfold pre_incr, pre_decr. rewrite Zminus_mod_idemp_l. f_equal. lia.
Qed.

(** A run of calls leaves every counter a value of [unsigned long]
    when it found them so. *)
Lemma update_all_wf (levels : list Z) (s : stat_s) :
  stats_wf h s -> stats_wf h (update_all h levels s).
Proof.
  revert s. induction levels as [|l levels IH]; intros s Hs; simpl.
  - exact Hs.
  - apply IH. now apply update_stats_wf.
Qed.

Lemma labels_distinct_neq :
  labels_distinct h ->
  STAT_OPEN h <> STAT_BADCONN h /\ STAT_CLOSE h <> STAT_BADCONN h /\
  STAT_CLOSE h <> STAT_OPEN h /\ STAT_REFUSE h <> STAT_BADCONN h /\
  STAT_REFUSE h <> STAT_OPEN h /\ STAT_REFUSE h <> STAT_CLOSE h /\
  STAT_DENIED h <> STAT_BADCONN h /\ STAT_DENIED h <> STAT_OPEN h /\
  STAT_DENIED h <> STAT_CLOSE h /\ STAT_DENIED h <> STAT_REFUSE h.
Proof.
  intros Hd. apply labels_distinct_eqb in Hd.
  repeat match goal with
         | H : _ /\ _ |- _ => destruct H
         | H : (_ =? _) = false |- _ => apply Z.eqb_neq in H
         end.
  tauto.
Qed.

Lemma count_level_cons (c l : Z) (levels : list Z) :
  count_level c (l :: levels) =
    (if l =? c then 1 else 0) + count_level c levels.
Proof.
  unfold count_level. simpl.
  destruct (Z.eq_dec l c) as [->|Hn].
  - rewrite Z.eqb_refl. lia.
  - apply Z.eqb_neq in Hn. rewrite Hn. lia.
Qed.

Lemma update_all_counts_from (levels : list Z) :
  labels_distinct h ->
  forall s,
    stats_wf h s ->
    let s' := update_all h levels s in
    let n c := count_level c levels in
    num_reqs s' = (num_reqs s + n (STAT_OPEN h)) mod ulong_modulus h /\
    num_badcons s' = (num_badcons s + n (STAT_BADCONN h)) mod ulong_modulus h /\
    num_open s' =
      (num_open s + (n (STAT_OPEN h) - n (STAT_CLOSE h))) mod ulong_modulus h /\
    num_refused s' = (num_refused s + n (STAT_REFUSE h)) mod ulong_modulus h /\
    num_denied s' = (num_denied s + n (STAT_DENIED h)) mod ulong_modulus h.
Proof.
  intros Hd. pose proof (labels_distinct_neq Hd) as Hn.
  decompose [and] Hn. clear Hn.
  induction levels as [|l levels IH]; intros s Hs; cbv zeta.
  - destruct Hs as (Hr & Hb & Ho & Hf & Hdn). unfold count_level. simpl.
    rewrite !Z.add_0_r, !Z.mod_small by assumption. tauto.
  - simpl update_all.
    destruct (IH _ (update_stats_wf h l s Hs)) as (Ir & Ib & Io & If & Id).
    rewrite Ir, Ib, Io, If, Id. clear Ir Ib Io If Id IH.
    rewrite !count_level_cons.
    unfold update_stats, pre_incr, pre_decr.
    repeat match goal with
           | |- context [?a =? ?b] =>
               destruct (Z.eqb_spec a b); try congruence
           end;
      cbn [snd num_reqs num_badcons num_open num_refused num_denied];
      rewrite ?Zplus_mod_idemp_l;
      repeat split; f_equal; lia.
Qed.

(** X4: after any run of calls on the fresh store each counter is the
    number of calls of its event, modulo [ULONG_MAX + 1], [num_open]
    being the opens less the closes; calls with a level that is none
    of the five leave no trace. *)
Theorem update_all_counts (levels : list Z) :
  labels_distinct h ->
  let s := update_all h levels stats_buf in
  let n c := count_level c levels in
  num_reqs s = n (STAT_OPEN h) mod ulong_modulus h /\
  num_badcons s = n (STAT_BADCONN h) mod ulong_modulus h /\
  num_open s = (n (STAT_OPEN h) - n (STAT_CLOSE h)) mod ulong_modulus h /\
  num_refused s = n (STAT_REFUSE h) mod ulong_modulus h /\
  num_denied s = n (STAT_DENIED h) mod ulong_modulus h.
Proof.
  intros Hd. pose proof (ulong_modulus_pos h) as Hm.
  assert (Hz : stats_wf h stats_buf) by (unfold stats_wf, is_ulong; simpl; lia).
  exact (update_all_counts_from levels Hd stats_buf Hz).
Qed.

(** X3: an open and a close, in either order, leave [num_open] as it
    was, also across the wrap at zero, and count one request; the
    other counters stay. *)
Theorem open_close_round_trip (s : stat_s) :
  labels_distinct h ->
  is_ulong h (num_open s) ->
  let s' := {| num_reqs := pre_incr h (num_reqs s);
               num_badcons := num_badcons s;
               num_open := num_open s;
               num_refused := num_refused s;
               num_denied := num_denied s |} in
  update_all h [STAT_OPEN h; STAT_CLOSE h] s = s' /\
  update_all h [STAT_CLOSE h; STAT_OPEN h] s = s'.
Proof.
  intros Hd Ho s'. unfold update_all.
  rewrite ?update_stats_open, ?update_stats_close by assumption.
  cbn [snd]. rewrite ?update_stats_open, ?update_stats_close by assumption.
  cbn [snd num_reqs num_badcons num_open num_refused num_denied].
  rewrite pre_decr_incr, pre_incr_decr, Z.mod_small by assumption.
  split; reflexivity.
Qed.

(** Two calls commute, whatever their levels. *)
Lemma update_stats_commute (l1 l2 : Z) (s : stat_s) :
  snd (update_stats h l1 (snd (update_stats h l2 s))) =
  snd (update_stats h l2 (snd (update_stats h l1 s))).
Proof.
  unfold update_stats.
  repeat match goal with
         | |- context [if ?b then _ else _] => destruct b
         end; simpl; rewrite ?pre_incr_decr, ?pre_decr_incr; reflexivity.
Qed.

(** X2: the store a run of calls leaves does not depend on the order
    of the calls. *)
Theorem update_all_permutation (levels levels' : list Z) (s : stat_s) :
  Permutation levels levels' ->
  update_all h levels s = update_all h levels' s.
Proof.
  intros Hp. revert s.
  induction Hp as [|l ls ls' _ IH|l1 l2 ls|ls1 ls2 ls3 _ IH1 _ IH2]; intros s; simpl.
  - reflexivity.
  - apply IH.
  - now rewrite update_stats_commute.
  - now rewrite IH1.
Qed.

End UpdateStatsRuns.

(** ** The digits of a counter *)

Lemma length_string_of_uint (d : Decimal.uint) :
  String.length (NilEmpty.string_of_uint d) = Decimal.nb_digits d.
Proof.
  induction d; simpl; congruence.
Qed.

Lemma of_uint_acc_lower (d : Decimal.uint) (acc : positive) :
  Z.pos acc * 10 ^ Z.of_nat (Decimal.nb_digits d) <= Z.pos (Pos.of_uint_acc d acc).
Proof.
  revert acc. induction d as [|d IH|d IH|d IH|d IH|d IH|d IH|d IH|d IH|d IH|d IH];
    intros acc; cbn [Pos.of_uint_acc Decimal.nb_digits];
    [ change (10 ^ Z.of_nat 0) with 1; lia | .. ];
    rewrite Nat2Z.inj_succ, Z.pow_succ_r by lia;
    (eapply Z.le_trans; [|apply IH]);
    assert (0 < 10 ^ Z.of_nat (Decimal.nb_digits d)) by (apply Z.pow_pos_nonneg; lia);
    change (Pos.mul _ acc) with (10 * acc)%positive; nia.
Qed.

(** A numeral without a leading zero is at least the power of ten of
    its digits but one. *)
Lemma of_uint_lower (d : Decimal.uint) :
  d <> Decimal.Nil ->
  (forall d', d <> Decimal.D0 d') ->
  10 ^ (Z.of_nat (Decimal.nb_digits d) - 1) <= Z.of_N (N.of_uint d).
Proof.
  intros Hnil H0.
  destruct d as [|d|d|d|d|d|d|d|d|d|d];
    [congruence | exfalso; eapply H0; reflexivity | ..];
    cbn [Decimal.nb_digits]; rewrite Nat2Z.inj_succ;
    replace (Z.succ (Z.of_nat (Decimal.nb_digits d)) - 1)
      with (Z.of_nat (Decimal.nb_digits d)) by lia;
    cbn [N.of_uint Pos.of_uint Z.of_N];
    (eapply Z.le_trans; [|apply of_uint_acc_lower]); 
    assert (0 < 10 ^ Z.of_nat (Decimal.nb_digits d)) by (apply Z.pow_pos_nonneg; lia);
    lia.
Qed.

Lemma to_uint_normal (n : N) : N.to_uint n = Decimal.unorm (N.to_uint n).
Proof.
  rewrite <- (DecimalN.Unsigned.to_of (N.to_uint n)).
  now rewrite DecimalN.Unsigned.of_to.
Qed.

(** [%lu] of a value below [10 ^ k] writes at most [k] digits. *)
Lemma fmt_lu_length (x : Z) (k : nat) :
  (0 < k)%nat -> 0 <= x < 10 ^ Z.of_nat k ->
  (String.length (fmt_lu x) <= k)%nat.
Proof.
  intros Hk Hx. unfold fmt_lu.
  destruct (Z.to_N x) as [|p] eqn:En.
  - simpl. lia.
  - pose proof (to_uint_normal (N.pos p)) as Hnorm.
    pose proof (DecimalN.Unsigned.of_to (N.pos p)) as Hof.
    remember (N.to_uint (N.pos p)) as d eqn:Ed.
    assert (Hnil : d <> Decimal.Nil).
    { intros ->. discriminate Hof. }
    assert (H0 : forall d', d <> Decimal.D0 d').
    { intros d' E. unfold Decimal.unorm in Hnorm.
      destruct (Decimal.nzhead d) eqn:Enz;
        try (rewrite Hnorm in E; eapply DecimalFacts.nzhead_nonzero;
             rewrite Enz; exact E).
      - rewrite Hnorm in Hof. discriminate Hof.
    }
    pose proof (of_uint_lower d Hnil H0) as Hlow.
    rewrite Hof in Hlow.
    assert (Hxp : Z.of_N (N.pos p) = x) by (rewrite <- En; apply Z2N.id; lia).
    rewrite Hxp in Hlow.
    assert (Hlen : String.length (NilZero.string_of_uint d) = Decimal.nb_digits d).
    { destruct d; try congruence; apply length_string_of_uint. }
    rewrite Hlen.
    destruct (Nat.le_gt_cases (Decimal.nb_digits d) k) as [|Hgt]; [assumption|].
    exfalso.
    assert (10 ^ Z.of_nat k <= 10 ^ (Z.of_nat (Decimal.nb_digits d) - 1))
      by (apply Z.pow_le_mono_r; lia).
    lia.
Qed.

Local Open Scope string_scope.

(** ** Runs of showstats *)

Section ShowstatsRuns.

Context (h : headers).

(** The three ways a run of showstats goes. *)
Lemma showstats_runs (request_headers stat_types : orderedmap)
    (statpage : option string) (stats : stat_s) (w : world)
    (ret : Z) (calls : list event) :
  showstats h request_headers stat_types statpage stats w = Ok (ret, calls) ->
  let page := snprintf (MAXBUFFSIZE h) (minimal_page_text h stats) in
  let sent := send_http_message_r w 200 "OK" page in
  exists opened : list event,
    (opened = [] \/ exists path, opened = [fopen path None]) /\
    ((safemalloc_r w (MAXBUFFSIZE h) = false /\ ret = (-1)%Z /\
      calls = (pthread_mutex_lock stats_file_lock :: opened ++
               [safemalloc (MAXBUFFSIZE h) false;
                pthread_mutex_unlock stats_file_lock])%list) \/
     (safemalloc_r w (MAXBUFFSIZE h) = true /\
      ret = (if (sent <? 0)%Z then -1 else 0)%Z /\
      calls = (pthread_mutex_lock stats_file_lock :: opened ++
               [safemalloc (MAXBUFFSIZE h) true;
                send_http_message 200 "OK" page sent;
                safefree;
                pthread_mutex_unlock stats_file_lock])%list) \/
     (exists path statfile,
        select_template request_headers stat_types statpage = Ok (Some path) /\
        fopen_r w path = Some statfile /\
        (ret, calls) =
          (fst (show_template statfile stats w),
           pthread_mutex_lock stats_file_lock :: fopen path (Some statfile)
             :: snd (show_template statfile stats w)))).
Proof.
  intros Hrun page sent. unfold showstats in Hrun.
  destruct (select_template request_headers stat_types statpage)
    as [[path|]|] eqn:Es; cbn [bind] in Hrun; [| |discriminate].
  - destruct (fopen_r w path) as [statfile|] eqn:Eo.
    + exists []. split; [now left|]. right. right. exists path, statfile.
      destruct (show_template statfile stats w). injection Hrun as <- <-. auto.
    + exists [fopen path None]. split; [right; eauto|].
      rewrite show_minimal_cases in Hrun. cbv zeta in Hrun.
      fold page sent in Hrun.
      destruct (safemalloc_r w (MAXBUFFSIZE h)); injection Hrun as <- <-; auto.
  - exists []. split; [now left|].
    rewrite show_minimal_cases in Hrun. cbv zeta in Hrun.
    fold page sent in Hrun.
    destruct (safemalloc_r w (MAXBUFFSIZE h)); injection Hrun as <- <-; auto.
Qed.


(** X6: every exit path gives back what the run took: at the end no
    mutex is held, no stream is open and no buffer is live, and no
    call on the way broke the protocol. *)
Theorem showstats_releases_everything (request_headers stat_types : orderedmap)
    (statpage : option string) (stats : stat_s) (w : world)
    (ret : Z) (calls : list event) :
  showstats h request_headers stat_types statpage stats w = Ok (ret, calls) ->
  track_all calls nothing_held = Some nothing_held.
Proof.
  intros Hrun. apply showstats_runs in Hrun. cbv zeta in Hrun.
  destruct Hrun as (opened & Hopened & [(_ & _ & ->) | [(_ & _ & ->) | Ht]]).
  - destruct Hopened as [-> | [path ->]]; reflexivity.
  - destruct Hopened as [-> | [path ->]]; reflexivity.
  - destruct Ht as (path & statfile & _ & _ & Ht).
    injection Ht as _ ->. unfold show_template.
    cbn [snd track_all track held_locks open_streams live_buffers existsb].
    rewrite Nat.eqb_refl. cbn. rewrite Nat.eqb_refl. reflexivity.
Qed.


(** With an Accept header among the request headers the run returns. *)
Lemma present_accept_defined (request_headers stat_types : orderedmap)
    (statpage : option string) (stats : stat_s) (w : world) (accept : string) :
  orderedmap_find request_headers "accept" = Some accept ->
  showstats h request_headers stat_types statpage stats w <> Undefined.
Proof.
  intros Ha. unfold showstats, select_template. rewrite Ha.
  pose proof (type_scan_defined accept stat_types) as Hdef.
  destruct (type_scan (Some accept) stat_types); [discriminate | congruence].
Qed.

(** X7: what any run of showstats sends.  Either the run has no
    defined behaviour and sends nothing, which is the case exactly
    when there is no Accept header and the registry has an entry (the
    null pointer reaches [strstr] before any call is made).  Or it
    returns, and then it has sent one message with the built-in page,
    or the headers and then the template, always with status 200; or
    nothing at all, when there was no room for the page.  The return
    value is -1 when nothing was sent or [send_http_message] reported
    a failure, and 0 in every other case. *)
Theorem showstats_one_response (request_headers stat_types : orderedmap)
    (statpage : option string) (stats : stat_s) (w : world) :
  match showstats h request_headers stat_types statpage stats w with
  | Undefined =>
      orderedmap_find request_headers "accept" = None /\ stat_types <> []
  | Ok (ret, calls) =>
      (orderedmap_find request_headers "accept" <> None \/ stat_types = []) /\
      ((filter is_sender calls = [] /\ ret = (-1)%Z /\
        In (safemalloc (MAXBUFFSIZE h) false) calls) \/
       (exists body sent,
          filter is_sender calls = [send_http_message 200 "OK" body sent] /\
          ret = (if (sent <? 0)%Z then -1 else 0)%Z) \/
       (exists statfile sent_headers sent_body,
          filter is_sender calls =
            [send_http_headers 200 "Statistic requested" EmptyString sent_headers;
             send_html_file statfile sent_body] /\
          ret = 0%Z))
  end.
Proof.
  destruct (showstats h request_headers stat_types statpage stats w)
    as [[ret calls]|] eqn:Hrun.
  - split.
    + destruct (orderedmap_find request_headers "accept") as [accept|] eqn:Ha;
        [left; discriminate|].
      destruct stat_types as [|entry rest]; [now right|]. exfalso.
      destruct (absent_accept h request_headers (entry :: rest) statpage stats w Ha)
        as [_ Hu]; [discriminate | congruence].
    + apply showstats_runs in Hrun. cbv zeta in Hrun.
      destruct Hrun as (opened & Hopened & [(_ & -> & ->) | [(_ & -> & ->) | Ht]]).
      * left. destruct Hopened as [-> | [path ->]]; cbn; tauto.
      * right. left. eexists _, _.
        destruct Hopened as [-> | [path ->]]; cbn; auto.
      * right. right. destruct Ht as (path & statfile & _ & _ & Ht).
        injection Ht as -> ->. unfold show_template. cbn. eauto.
  - split.
    + destruct (orderedmap_find request_headers "accept") as [accept|] eqn:Ha;
        [|reflexivity].
      exfalso. exact (present_accept_defined _ _ _ _ _ _ Ha Hrun).
    + intros ->. unfold showstats, select_template in Hrun.
      cbn [type_scan bind] in Hrun. discriminate Hrun.
Qed.

End ShowstatsRuns.

(** ** The text showstats hands out *)

Lemma length_append (a b : string) :
  String.length (a ++ b) = (String.length a + String.length b)%nat.
Proof. induction a as [|c a IH]; simpl; [reflexivity | now rewrite IH]. Qed.

Lemma prefix_substring (n : nat) (s : string) : prefix (substring 0 n s) s = true.
Proof.
  revert s. induction n as [|n IH]; intros [|c s]; simpl; try reflexivity.
  destruct (ascii_dec c c); [apply IH | congruence].
Qed.

Lemma prefix_refl (s : string) : prefix s s = true.
Proof.
  induction s as [|c s IH]; simpl; [reflexivity|].
  destruct (ascii_dec c c); [exact IH | congruence].
Qed.

Lemma snprintf_prefix (size : Z) (text : string) :
  prefix (snprintf size text) text = true.
Proof.
  unfold snprintf. destruct (_ <? _)%Z; [apply prefix_refl | apply prefix_substring].
Qed.

Lemma snprintf_length (size : Z) (text : string) :
  (0 < size)%Z -> (Z.of_nat (String.length (snprintf size text)) < size)%Z.
Proof.
  intros Hs. unfold snprintf.
  destruct (Z.ltb_spec (Z.of_nat (String.length text)) size); [assumption|].
  rewrite length_substring. lia.
Qed.

Lemma snprintf_16_length (text : string) :
  (String.length (snprintf 16 text) <= 15)%nat.
Proof. pose proof (snprintf_length 16 text ltac:(lia)). lia. Qed.

Lemma snprintf_16_exact (x : Z) :
  (0 <= x < 10 ^ 15)%Z -> snprintf 16 (fmt_lu x) = fmt_lu x.
Proof.
  intros Hx. apply snprintf_fits.
  pose proof (fmt_lu_length x 15 ltac:(lia) Hx). lia.
Qed.

Section ShowstatsText.

Context (h : headers).

(** X8: on the template path showstats returns 0 after exactly these
    calls: the five variables [opens], [reqs], [badconns],
    [deniedconns], [refusedconns] in this order, the standard
    variables, the headers with status 200, the file, [fclose].  No
    value is longer than the 15 characters its buffer holds, and when
    the counters are below [10 ^ 15] each value reads back as its
    counter. *)
Theorem template_variables (request_headers stat_types : orderedmap)
    (statpage : option string) (stats : stat_s) (w : world)
    (path : string) (statfile : FILE) :
  select_template request_headers stat_types statpage = Ok (Some path) ->
  fopen_r w path = Some statfile ->
  exists opens reqs badconns denied refused,
    showstats h request_headers stat_types statpage stats w =
      Ok (0%Z, [pthread_mutex_lock stats_file_lock;
                fopen path (Some statfile);
                add_error_variable "opens" opens;
                add_error_variable "reqs" reqs;
                add_error_variable "badconns" badconns;
                add_error_variable "deniedconns" denied;
                add_error_variable "refusedconns" refused;
                add_standard_vars;
                send_http_headers 200 "Statistic requested" EmptyString
                  (send_http_headers_r w);
                send_html_file statfile (send_html_file_r w statfile);
                fclose statfile;
                pthread_mutex_unlock stats_file_lock]) /\
    Forall (fun v => (String.length v <= 15)%nat)
      [opens; reqs; badconns; denied; refused] /\
    (counters_below (10 ^ 15) stats ->
     parse_lu opens = Some (num_open stats) /\
     parse_lu reqs = Some (num_reqs stats) /\
     parse_lu badconns = Some (num_badcons stats) /\
     parse_lu denied = Some (num_denied stats) /\
     parse_lu refused = Some (num_refused stats)).
Proof.
  intros Hs Ho. unfold showstats. rewrite Hs. cbn [bind]. rewrite Ho.
  unfold show_template. cbv zeta.
  exists (snprintf 16 (fmt_lu (num_open stats))),
         (snprintf 16 (fmt_lu (num_reqs stats))),
         (snprintf 16 (fmt_lu (num_badcons stats))),
         (snprintf 16 (fmt_lu (num_denied stats))),
         (snprintf 16 (fmt_lu (num_refused stats))).
  split; [reflexivity|]. split.
  - repeat (apply Forall_cons; [apply snprintf_16_length|]). apply Forall_nil.
  - intros (Hr & Hb & Hop & Hf & Hd).
    rewrite !snprintf_16_exact by assumption.
    repeat split; apply parse_fmt_lu; lia.
Qed.

(** X9: where [unsigned long] has at most 49 bits, and so on a 32-bit
    build, the five template variables are the whole numerals of the
    counters, whatever the counters hold. *)
Theorem template_variables_narrow (request_headers stat_types : orderedmap)
    (statpage : option string) (stats : stat_s) (w : world)
    (path : string) (statfile : FILE) :
  (Z.pos (ULONG_BITS h) <= 49)%Z ->
  stats_wf h stats ->
  select_template request_headers stat_types statpage = Ok (Some path) ->
  fopen_r w path = Some statfile ->
  showstats h request_headers stat_types statpage stats w =
    Ok (0%Z, [pthread_mutex_lock stats_file_lock;
              fopen path (Some statfile);
              add_error_variable "opens" (fmt_lu (num_open stats));
              add_error_variable "reqs" (fmt_lu (num_reqs stats));
              add_error_variable "badconns" (fmt_lu (num_badcons stats));
              add_error_variable "deniedconns" (fmt_lu (num_denied stats));
              add_error_variable "refusedconns" (fmt_lu (num_refused stats));
              add_standard_vars;
              send_http_headers 200 "Statistic requested" EmptyString
                (send_http_headers_r w);
              send_html_file statfile (send_html_file_r w statfile);
              fclose statfile;
              pthread_mutex_unlock stats_file_lock]).
Proof.
  intros Hw (Hr & Hb & Hop & Hf & Hd) Hs Ho.
  assert (Hm : (ulong_modulus h <= 10 ^ 15)%Z).
  { unfold ulong_modulus.
    apply Z.le_trans with (2 ^ 49)%Z; [apply Z.pow_le_mono_r; lia | now vm_compute]. }
  unfold is_ulong in *.
  unfold showstats. rewrite Hs. cbn [bind]. rewrite Ho.
  unfold show_template. cbv zeta.
  rewrite !snprintf_16_exact by lia. reflexivity.
Qed.

End ShowstatsText.

Section MinimalPage.

Context (h : headers).

Lemma minimal_page_length (stats : stat_s) :
  String.length (minimal_page_text h stats) =
    (503 + 3 * (String.length (PACKAGE h) + String.length (VERSION h))
     + String.length (fmt_lu (num_open stats))
     + String.length (fmt_lu (num_reqs stats))
     + String.length (fmt_lu (num_badcons stats))
     + String.length (fmt_lu (num_denied stats))
     + String.length (fmt_lu (num_refused stats)))%nat.
Proof.
  unfold minimal_page_text. rewrite !length_append.
  cbn [String.length nl dq]. lia.
Qed.

Lemma minimal_page_lines (stats : stat_s) :
  Forall (fun line => occurs_in line (minimal_page_text h stats))
    (counter_lines stats).
Proof.
  unfold counter_lines, minimal_page_text.
  repeat (apply Forall_cons;
          [repeat first [ apply occurs_in_head | apply occurs_in_append ]|]).
  apply Forall_nil.
Qed.

Lemma fmt_lu_length_64 (x : Z) :
  (Z.pos (ULONG_BITS h) <= 64)%Z -> is_ulong h x ->
  (String.length (fmt_lu x) <= 20)%nat.
Proof.
  intros Hw Hx. apply fmt_lu_length; [lia|].
  unfold is_ulong, ulong_modulus in Hx.
  assert (2 ^ Z.pos (ULONG_BITS h) <= 2 ^ 64)%Z by (apply Z.pow_le_mono_r; lia).
  assert (2 ^ 64 < 10 ^ Z.of_nat 20)%Z by now vm_compute.
  lia.
Qed.

(** X10: with [unsigned long] of at most 64 bits and a buffer of more
    than 603 bytes and three times the lengths of [PACKAGE] and
    [VERSION], the built-in page is never cut: the message sent is the
    whole text, with the five counter lines in it. *)
Theorem minimal_page_whole (stats : stat_s) (w : world) :
  (Z.pos (ULONG_BITS h) <= 64)%Z ->
  stats_wf h stats ->
  (603 + 3 * Z.of_nat (String.length (PACKAGE h) + String.length (VERSION h))
     < MAXBUFFSIZE h)%Z ->
  safemalloc_r w (MAXBUFFSIZE h) = true ->
  let body := minimal_page_text h stats in
  snprintf (MAXBUFFSIZE h) body = body /\
  Forall (fun line => occurs_in line body) (counter_lines stats) /\
  exists ret,
    show_minimal h stats w =
      (ret, [safemalloc (MAXBUFFSIZE h) true;
             send_http_message 200 "OK" body (send_http_message_r w 200 "OK" body);
             safefree;
             pthread_mutex_unlock stats_file_lock]).
Proof.
  intros Hw (Hr & Hb & Hop & Hf & Hd) Hfit Hroom body.
  assert (Hwhole : snprintf (MAXBUFFSIZE h) body = body).
  { apply snprintf_fits. unfold body. rewrite minimal_page_length.
    pose proof (fmt_lu_length_64 _ Hw Hr). pose proof (fmt_lu_length_64 _ Hw Hb).
    pose proof (fmt_lu_length_64 _ Hw Hop). pose proof (fmt_lu_length_64 _ Hw Hf).
    pose proof (fmt_lu_length_64 _ Hw Hd). lia. }
  split; [exact Hwhole|]. split; [apply minimal_page_lines|].
  rewrite show_minimal_cases. cbv zeta. rewrite Hroom. fold body. rewrite Hwhole.
  eexists. reflexivity.
Qed.

(** X11: a message showstats sends was formatted into a buffer that
    [safemalloc] gave with [MAXBUFFSIZE] bytes, is shorter than that,
    and is the built-in page or a prefix of it. *)
Theorem message_fits_buffer (request_headers stat_types : orderedmap)
    (statpage : option string) (stats : stat_s) (w : world)
    (ret : Z) (calls : list event) (code : Z) (msg body : string) (sent : Z) :
  (0 < MAXBUFFSIZE h)%Z ->
  showstats h request_headers stat_types statpage stats w = Ok (ret, calls) ->
  In (send_http_message code msg body sent) calls ->
  In (safemalloc (MAXBUFFSIZE h) true) calls /\
  (Z.of_nat (String.length body) < MAXBUFFSIZE h)%Z /\
  prefix body (minimal_page_text h stats) = true.
Proof.
  intros Hpos Hrun Hin. apply showstats_runs in Hrun. cbv zeta in Hrun.
  destruct Hrun as (opened & Hopened & [(_ & _ & ->) | [(_ & _ & ->) | Ht]]).
  - exfalso. destruct Hopened as [-> | [path ->]]; simpl in Hin;
      intuition discriminate.
  - assert (Hb : body = snprintf (MAXBUFFSIZE h) (minimal_page_text h stats)).
    { destruct Hopened as [-> | [path ->]]; simpl in Hin;
        intuition (try discriminate; congruence). }
    subst body. split; [|split].
    + destruct Hopened as [-> | [path ->]]; simpl; tauto.
    + now apply snprintf_length.
    + apply snprintf_prefix.
  - exfalso. destruct Ht as (path & statfile & _ & _ & Ht).
    injection Ht as _ ->. unfold show_template in Hin. simpl in Hin.
    intuition discriminate.
Qed.

End MinimalPage.

(** X12: with the registry [init_stats] builds and an Accept header:
    the HTML template is selected whenever [text/html] occurs in the
    header, wherever it does; the JSON template when [application/json]
    occurs and [text/html] does not; [config->statpage] when neither
    occurs. *)
Theorem init_stats_selection (request_headers : orderedmap) (accept : string)
    (statpage : option string) :
  orderedmap_find request_headers "accept" = Some accept ->
  (occurs_in "text/html" accept ->
   select_template request_headers init_stats statpage
     = Ok (Some "data/templates/stats.html")) /\
  (~ occurs_in "text/html" accept -> occurs_in "application/json" accept ->
   select_template request_headers init_stats statpage
     = Ok (Some "data/templates/stats.json")) /\
  (~ occurs_in "text/html" accept -> ~ occurs_in "application/json" accept ->
   select_template request_headers init_stats statpage = Ok statpage).
Proof.
  intros Ha. unfold select_template. rewrite Ha.
  unfold init_stats, orderedmap_append, orderedmap_create.
  cbn [app type_scan strstr bind].
  split; [|split].
  - intros Hh. apply strstr_at_occurs in Hh. destruct Hh as [i ->]. reflexivity.
  - intros Hn Hj. apply strstr_at_none in Hn. rewrite Hn.
    apply strstr_at_occurs in Hj. destruct Hj as [i ->]. reflexivity.
  - intros Hn Hj. apply strstr_at_none in Hn. apply strstr_at_none in Hj.
    rewrite Hn, Hj. now destruct statpage.
Qed.

(** ** The mutexes *)

Section Mutexes.

Context (h : headers).

Lemma mutex_eqb_eq (a b : mutex) : mutex_eqb a b = true <-> a = b.
Proof. destruct a, b; simpl; split; congruence. Qed.

Lemma mutex_eqb_refl (a : mutex) : mutex_eqb a a = true.
Proof. now destruct a. Qed.

Lemma is_program_disciplined (ops : list op) :
  is_program h ops -> disciplined None ops = true.
Proof.
  intros [[l ->] | [[|] ->]]; [|reflexivity|reflexivity].
  unfold update_stats_ops.
  repeat match goal with
         | |- context [(l =? ?c)%Z] => destruct (l =? c)%Z; [reflexivity|]
         end.
  reflexivity.
Qed.

Lemma disciplined_held_unique (ops : list op) (a b : option mutex) :
  disciplined a ops = true -> disciplined b ops = true -> a = b.
Proof.
  revert a b. induction ops as [|o ops IH]; intros a b; simpl.
  - destruct a, b; congruence.
  - destruct o as [mx|mx| | |]; try apply IH.
    + destruct a, b; congruence.
    + destruct a as [a|], b as [b|]; try discriminate.
      rewrite !andb_true_iff, !mutex_eqb_eq. intros [<- _] [<- _]. reflexivity.
Qed.

Lemma length_set_thread (i : nat) (t : thread) (ts : list thread) :
  List.length (set_thread i t ts) = List.length ts.
Proof.
  revert i. induction ts as [|t0 ts IH]; intros [|i]; simpl; auto.
Qed.

Lemma nth_error_set_thread_eq (i : nat) (t t0 : thread) (ts : list thread) :
  nth_error ts i = Some t0 -> nth_error (set_thread i t ts) i = Some t.
Proof.
  revert i. induction ts as [|t1 ts IH]; intros [|i]; simpl; try discriminate; auto.
Qed.

Lemma nth_error_set_thread_neq (i j : nat) (t : thread) (ts : list thread) :
  i <> j -> nth_error (set_thread i t ts) j = nth_error ts j.
Proof.
  revert i j. induction ts as [|t1 ts IH]; intros [|i] [|j] Hn; simpl;
    try reflexivity; try congruence.
  apply IH. congruence.
Qed.

(** What one step does to the thread that moves. *)
Lemma step_inversion (m m' : machine) (i : nat) :
  step h m i = Some m' ->
  exists t o rest t',
    nth_error (pool m) i = Some t /\ todo t = o :: rest /\ todo t' = rest /\
    pool m' = set_thread i t' (pool m) /\
    match o with
    | op_lock mx =>
        owner m mx = None /\
        owner m' = (fun x => if mutex_eqb x mx then Some i else owner m x)
    | op_unlock mx =>
        owner m' = (fun x => if mutex_eqb x mx then None else owner m x)
    | _ => owner m' = owner m
    end.
Proof.
  unfold step. destruct (nth_error (pool m) i) as [t|] eqn:Et; [|discriminate].
  destruct (todo t) as [|o rest] eqn:Ec; [discriminate|].
  destruct o as [mx|mx|f|f|f].
  - destruct (owner m mx) eqn:Eo; [discriminate|]. intros [= <-].
    eexists t, (op_lock mx), rest, _. simpl. repeat split; eauto.
  - intros [= <-]. eexists t, (op_unlock mx), rest, _. simpl. repeat split; eauto.
  - intros [= <-]. eexists t, (op_incr f), rest, _. simpl. repeat split; eauto.
  - intros [= <-]. eexists t, (op_decr f), rest, _. simpl. repeat split; eauto.
  - intros [= <-]. eexists t, (op_read f), rest, _. simpl. repeat split; eauto.
Qed.

Lemma step_keeps_inv (m m' : machine) (i : nat) :
  machine_inv m -> step h m i = Some m' -> machine_inv m'.
Proof.
  intros [Hth Hown] Hstep.
  destruct (step_inversion _ _ _ Hstep)
    as (t & o & rest & t' & Et & Ec & Ec' & Ep & Ho).
  destruct (Hth i t Et) as (held & Hd & Hheld).
  rewrite Ec in Hd.
  assert (Hlen : List.length (pool m') = List.length (pool m))
    by (rewrite Ep; apply length_set_thread).
  split.
  - intros j tj Ej. rewrite Ep in Ej.
    destruct (Nat.eq_dec i j) as [<-|Hij].
    + rewrite (nth_error_set_thread_eq _ _ _ _ Et) in Ej. injection Ej as <-.
      unfold thread_inv. rewrite Ec'.
      destruct o as [mx|mx|f|f|f]; simpl in Hd.
      * destruct held; [discriminate|]. destruct Ho as [Hfree ->].
        exists (Some mx). split; [exact Hd|]. intros x.
        destruct (mutex_eqb x mx) eqn:Ex.
        -- apply mutex_eqb_eq in Ex. subst. tauto.
        -- rewrite Hheld. split; [discriminate|].
           intros [= <-]. now rewrite mutex_eqb_refl in Ex.
      * destruct held as [mx'|]; [|discriminate].
        apply andb_true_iff in Hd. destruct Hd as [Hmx Hd].
        apply mutex_eqb_eq in Hmx. subst mx'. rewrite Ho.
        exists None. split; [exact Hd|]. intros x.
        destruct (mutex_eqb x mx) eqn:Ex; [split; discriminate|].
        rewrite Hheld. split; [|discriminate].
        intros [= <-]. now rewrite mutex_eqb_refl in Ex.
      * rewrite Ho. exists held. auto.
      * rewrite Ho. exists held. auto.
      * rewrite Ho. exists held. auto.
    + rewrite nth_error_set_thread_neq in Ej by assumption.
      destruct (Hth j tj Ej) as (hj & Hdj & Hhj).
      exists hj. split; [exact Hdj|]. intros x.
      destruct o as [mx|mx|f|f|f]; simpl in Hd.
      * destruct Ho as [Hfree ->].
        destruct (mutex_eqb x mx) eqn:Ex; [|apply Hhj].
        apply mutex_eqb_eq in Ex. subst x.
        rewrite <- Hhj, Hfree. split; [congruence | discriminate].
      * rewrite Ho. destruct (mutex_eqb x mx) eqn:Ex; [|apply Hhj].
        apply mutex_eqb_eq in Ex. subst x.
        destruct held as [mx'|]; [|discriminate].
        apply andb_true_iff in Hd. destruct Hd as [Hmx _].
        apply mutex_eqb_eq in Hmx. subst mx'.
        rewrite <- Hhj. pose proof (proj2 (Hheld mx) eq_refl) as Hi.
        rewrite Hi. split; [discriminate | congruence].
      * rewrite Ho. apply Hhj.
      * rewrite Ho. apply Hhj.
      * rewrite Ho. apply Hhj.
  - intros x j. rewrite Hlen.
    assert (Hi : (i < List.length (pool m))%nat)
      by (apply nth_error_Some; congruence).
    destruct o as [mx|mx|f|f|f].
    + destruct Ho as [_ ->]. destruct (mutex_eqb x mx).
      * intros [= <-]. exact Hi.
      * apply Hown.
    + rewrite Ho. destruct (mutex_eqb x mx); [discriminate | apply Hown].
    + rewrite Ho. apply Hown.
    + rewrite Ho. apply Hown.
    + rewrite Ho. apply Hown.
Qed.

Lemma boot_inv (s : stat_s) (programs : list (list op)) :
  Forall (is_program h) programs -> machine_inv (boot s programs).
Proof.
  intros Hp. split; [|discriminate].
  intros i t Et. unfold boot in Et. simpl in Et.
  rewrite nth_error_map in Et.
  destruct (nth_error programs i) as [ops|] eqn:Eops; [|discriminate].
  injection Et as <-. exists None. split.
  - apply is_program_disciplined.
    rewrite Forall_forall in Hp. apply Hp. eapply nth_error_In; eauto.
  - intros mx. simpl. split; discriminate.
Qed.

Lemma run_keeps_inv (schedule : list nat) (m m' : machine) :
  machine_inv m -> run h schedule m = Some m' -> machine_inv m'.
Proof.
  revert m. induction schedule as [|i schedule IH]; intros m Hinv; simpl.
  - now intros [= <-].
  - destruct (step h m i) as [m1|] eqn:Es; [|discriminate].
    apply IH. eapply step_keeps_inv; eauto.
Qed.


Lemma finished_or_not (m : machine) :
  finished m \/
  exists i t o rest, nth_error (pool m) i = Some t /\ todo t = o :: rest.
Proof.
  unfold finished. induction (pool m) as [|t ts IH].
  - left. constructor.
  - destruct (todo t) as [|o rest] eqn:Ec.
    + destruct IH as [IH | (i & t' & o & rest & Et & Ec')].
      * left. now constructor.
      * right. exists (S i), t', o, rest. auto.
    + right. exists O, t, o, rest. auto.
Qed.

(** Under the invariant a thread can always move, unless all have
    finished: a thread that waits for a mutex waits for a thread that
    can itself move. *)
Lemma some_thread_moves (m : machine) :
  machine_inv m -> finished m \/ exists i m', step h m i = Some m'.
Proof.
  intros [Hth Hown].
  destruct (finished_or_not m) as [Hf | (i & t & o & rest & Et & Ec)];
    [now left | right].
  assert (Hplain : forall j tj o' rest',
             nth_error (pool m) j = Some tj -> todo tj = o' :: rest' ->
             (forall mx, o' <> op_lock mx) -> exists m', step h m j = Some m').
  { intros j tj o' rest' Ej Ecj Hnl. unfold step. rewrite Ej, Ecj.
    destruct o'; eauto. now destruct (Hnl m0). }
  destruct o as [mx|mx|f|f|f];
    try (exists i; eapply Hplain; eauto; discriminate).
  destruct (owner m mx) as [j|] eqn:Eo.
  - assert (Hj : (j < List.length (pool m))%nat) by eauto.
    apply nth_error_Some in Hj.
    destruct (nth_error (pool m) j) as [tj|] eqn:Ej; [|congruence].
    destruct (Hth j tj Ej) as (held & Hd & Hheld).
    apply Hheld in Eo. subst held.
    destruct (todo tj) as [|o' rest'] eqn:Ecj; [discriminate Hd|].
    exists j. eapply Hplain; eauto.
    intros mx' ->. discriminate Hd.
  - exists i. unfold step. rewrite Et, Ec, Eo. eauto.
Qed.

Lemma remaining_set_thread (i : nat) (t t' : thread) (ts : list thread) :
  nth_error ts i = Some t ->
  List.length (todo t) = S (List.length (todo t')) ->
  list_sum (map (fun t => List.length (todo t)) ts) =
    S (list_sum (map (fun t => List.length (todo t)) (set_thread i t' ts))).
Proof.
  revert i. induction ts as [|t0 ts IH]; intros [|i]; simpl; try discriminate.
  - intros [= ->] Hl. lia.
  - intros Et Hl. rewrite (IH i Et Hl). lia.
Qed.

Lemma step_remaining (m m' : machine) (i : nat) :
  step h m i = Some m' -> remaining m = S (remaining m').
Proof.
  intros Hstep.
  destruct (step_inversion _ _ _ Hstep)
    as (t & o & rest & t' & Et & Ec & Ec' & Ep & _).
  unfold remaining. rewrite Ep.
  apply remaining_set_thread with (t := t); [exact Et|].
  now rewrite Ec, Ec'.
Qed.

Lemma completes (n : nat) (m : machine) :
  machine_inv m -> remaining m = n ->
  exists more m', run h more m = Some m' /\ finished m'.
Proof.
  revert m. induction n as [|n IH]; intros m Hinv Hn.
  - destruct (some_thread_moves m Hinv) as [Hf | (i & m1 & Hs)].
    + exists [], m. auto.
    + apply step_remaining in Hs. congruence.
  - destruct (some_thread_moves m Hinv) as [Hf | (i & m1 & Hs)].
    + exists [], m. auto.
    + destruct (IH m1) as (more & m' & Hr & Hf).
      * eapply step_keeps_inv; eauto.
      * apply step_remaining in Hs. congruence.
      * exists (i :: more), m'. simpl. rewrite Hs. auto.
Qed.

(** X14: in any pool of [update_stats] and showstats threads, however
    scheduled, no two threads are at once between the lock and the
    unlock of the same mutex. *)
Theorem mutual_exclusion (programs : list (list op)) (s : stat_s)
    (schedule : list nat) (m : machine) (i j : nat) (ti tj : thread)
    (mx : mutex) :
  Forall (is_program h) programs ->
  run h schedule (boot s programs) = Some m ->
  nth_error (pool m) i = Some ti ->
  nth_error (pool m) j = Some tj ->
  disciplined (Some mx) (todo ti) = true ->
  disciplined (Some mx) (todo tj) = true ->
  i = j.
Proof.
  intros Hp Hrun Ei Ej Hi Hj.
  destruct (run_keeps_inv _ _ _ (boot_inv s programs Hp) Hrun) as [Hth _].
  destruct (Hth i ti Ei) as (hi & Hdi & Hhi).
  destruct (Hth j tj Ej) as (hj & Hdj & Hhj).
  pose proof (disciplined_held_unique _ _ _ Hdi Hi) as ->.
  pose proof (disciplined_held_unique _ _ _ Hdj Hj) as ->.
  pose proof (proj2 (Hhi mx) eq_refl) as Hoi.
  pose proof (proj2 (Hhj mx) eq_refl) as Hoj.
  congruence.
Qed.

(** X15: the threads never deadlock: whatever has run so far, some
    schedule takes every thread to its end. *)
Theorem never_deadlocks (programs : list (list op)) (s : stat_s)
    (schedule : list nat) (m : machine) :
  Forall (is_program h) programs ->
  run h schedule (boot s programs) = Some m ->
  exists more m', run h more m = Some m' /\ finished m'.
Proof.
  intros Hp Hrun.
  apply (completes (remaining m)); [|reflexivity].
  exact (run_keeps_inv _ _ _ (boot_inv s programs Hp) Hrun).
Qed.

End Mutexes.

(** ** update_stats on several threads *)

Section FineGrainProofs.

Context (h : headers).

Lemma update_stats_body_accesses (l : Z) :
  forallb is_access (update_stats_body h l) = true.
Proof.
  unfold update_stats_body.
  repeat match goal with
         | |- context [(l =? ?c)%Z] => destruct (l =? c)%Z; [reflexivity|]
         end.
  reflexivity.
Qed.

(** Run alone, the accesses of one call do what [update_stats] does. *)
Lemma alone_update_stats_code (l : Z) (loaded : Z) (s : stat_s) :
  alone h (update_stats_code h l) loaded s = snd (update_stats h l s).
Proof.
  unfold update_stats_code, update_stats_body, update_stats.
  repeat match goal with
         | |- context [(l =? ?c)%Z] =>
             destruct (l =? c)%Z; [destruct s; reflexivity|]
         end.
  reflexivity.
Qed.

Lemma accesses_then_unlock (rest : list instr) (mx : mutex) :
  forallb is_access rest = true ->
  starts_with_lock (rest ++ [i_unlock mx]) = false.
Proof.
  destruct rest as [|[]]; simpl; try reflexivity; discriminate.
Qed.

Lemma length_set_worker (i : nat) (w : worker) (ws : list worker) :
  List.length (set_worker i w ws) = List.length ws.
Proof.
  revert i. induction ws as [|w0 ws IH]; intros [|i]; simpl; auto.
Qed.

Lemma nth_error_set_worker_eq (i : nat) (w w0 : worker) (ws : list worker) :
  nth_error ws i = Some w0 -> nth_error (set_worker i w ws) i = Some w.
Proof.
  revert i. induction ws as [|w1 ws IH]; intros [|i]; simpl; try discriminate; auto.
Qed.

Lemma nth_error_set_worker_neq (i j : nat) (w : worker) (ws : list worker) :
  i <> j -> nth_error (set_worker i w ws) j = nth_error ws j.
Proof.
  revert i j. induction ws as [|w1 ws IH]; intros [|i] [|j] Hn; simpl;
    try reflexivity; try congruence.
  apply IH. congruence.
Qed.

Lemma fresh_effects_idle (ws : list worker) (s : stat_s) :
  Forall (fun w => starts_with_lock (code w) = false) ws ->
  fresh_effects h ws s = s.
Proof.
  intros Hf. revert s. induction Hf as [|w ws Hw _ IH]; intros s; simpl.
  - reflexivity.
  - rewrite Hw. apply IH.
Qed.

Lemma fresh_effects_set_idle (i : nat) (w w' : worker) (ws : list worker)
    (s : stat_s) :
  nth_error ws i = Some w ->
  starts_with_lock (code w) = false ->
  starts_with_lock (code w') = false ->
  fresh_effects h (set_worker i w' ws) s = fresh_effects h ws s.
Proof.
  revert i s. induction ws as [|w0 ws IH]; intros [|i] s; simpl; try discriminate.
  - intros [= ->] Hw Hw'. now rewrite Hw, Hw'.
  - intros Et Hw Hw'. now apply IH.
Qed.

(** A worker that enters the critical section takes its call out of
    those still to come and puts it first; calls commute, so nothing
    changes in the end. *)
Lemma fresh_effects_take (i : nat) (w w' : worker) (l : Z) (ws : list worker)
    (s : stat_s) :
  nth_error ws i = Some w ->
  code w = update_stats_code h l ->
  starts_with_lock (code w') = false ->
  (forall k wk, nth_error ws k = Some wk -> starts_with_lock (code wk) = true ->
                exists lk, code wk = update_stats_code h lk) ->
  fresh_effects h ws s =
    fresh_effects h (set_worker i w' ws) (snd (update_stats h l s)).
Proof.
  revert i s. induction ws as [|w0 ws IH]; intros [|i] s; simpl; try discriminate.
  - intros [= ->] Hc Hw' _. rewrite Hw', Hc. simpl starts_with_lock.
    now rewrite alone_update_stats_code.
  - intros Et Hc Hw' Hall.
    assert (Hall' : forall k wk, nth_error ws k = Some wk ->
                      starts_with_lock (code wk) = true ->
                      exists lk, code wk = update_stats_code h lk)
      by (intros k wk Hk; apply (Hall (S k) wk Hk)).
    destruct (starts_with_lock (code w0)) eqn:E0.
    + destruct (Hall O w0 eq_refl E0) as [l0 Hc0].
      rewrite Hc0, !alone_update_stats_code.
      rewrite (IH i _ Et Hc Hw' Hall').
      now rewrite update_stats_commute.
    + now apply IH.
Qed.

Lemma fine_step_inversion (m m' : fine_machine) (i : nat) :
  fine_step h m i = Some m' ->
  exists w o rest,
    nth_error (workers m) i = Some w /\ code w = o :: rest /\
    match o with
    | i_lock mx =>
        fine_owner m mx = None /\
        m' = {| fine_shared := fine_shared m;
                fine_owner := fun x => if mutex_eqb x mx then Some i
                                       else fine_owner m x;
                workers := set_worker i {| code := rest; tmp := tmp w |}
                             (workers m) |}
    | i_unlock mx =>
        m' = {| fine_shared := fine_shared m;
                fine_owner := fun x => if mutex_eqb x mx then None
                                       else fine_owner m x;
                workers := set_worker i {| code := rest; tmp := tmp w |}
                             (workers m) |}
    | i_load f =>
        m' = {| fine_shared := fine_shared m;
                fine_owner := fine_owner m;
                workers := set_worker i
                             {| code := rest; tmp := get_field f (fine_shared m) |}
                             (workers m) |}
    | i_store_incr f =>
        m' = {| fine_shared := set_field f (pre_incr h (tmp w)) (fine_shared m);
                fine_owner := fine_owner m;
                workers := set_worker i {| code := rest; tmp := tmp w |}
                             (workers m) |}
    | i_store_decr f =>
        m' = {| fine_shared := set_field f (pre_decr h (tmp w)) (fine_shared m);
                fine_owner := fine_owner m;
                workers := set_worker i {| code := rest; tmp := tmp w |}
                             (workers m) |}
    end.
Proof.
  unfold fine_step.
  destruct (nth_error (workers m) i) as [w|] eqn:Ew; [|discriminate].
  destruct (code w) as [|o rest] eqn:Ec; [discriminate|].
  intros Hs. exists w, o, rest. split; [reflexivity|]. split; [exact Ec|].
  destruct o as [mx|mx|f|f|f]; try (injection Hs as <-; reflexivity).
  destruct (fine_owner m mx); [discriminate|].
  injection Hs as <-. auto.
Qed.


Lemma fine_step_keeps (m m' : fine_machine) (i : nat) :
  fine_inv h m -> fine_step h m i = Some m' ->
  fine_inv h m' /\ outcome h m' = outcome h m.
Proof.
  intros [Hw Hown] Hs.
  destruct (fine_step_inversion _ _ _ Hs) as (w & o & rest & Ew & Ec & Hm).
  assert (Hi : (i < List.length (workers m))%nat)
    by (apply nth_error_Some; congruence).
  destruct (Hw i w Ew) as [(Hin & body & Hbody & Hacc) | (Hout & Hshape)].
  - rewrite Ec in Hbody. destruct body as [|a body].
    + (* the unlock that ends the critical section *)
      simpl in Hbody. injection Hbody as -> ->. subst m'.
      split; [split|].
      * intros j wj Ej. simpl in Ej. right. simpl.
        split; [discriminate|].
        destruct (Nat.eq_dec i j) as [<-|Hij].
        -- rewrite (nth_error_set_worker_eq _ _ _ _ Ew) in Ej.
           injection Ej as <-. now left.
        -- rewrite nth_error_set_worker_neq in Ej by assumption.
           destruct (Hw j wj Ej) as [(Hj & _) | (_ & Hsh)]; [congruence | exact Hsh].
      * simpl. discriminate.
      * unfold outcome. simpl. rewrite Hin, Ew, Ec. simpl.
        apply fresh_effects_set_idle with (w := w); [exact Ew | now rewrite Ec | reflexivity].
    + (* an access inside the critical section *)
      simpl in Hbody, Hacc. injection Hbody as -> ->.
      apply andb_true_iff in Hacc. destruct Hacc as [Ha Hacc].
      assert (Hkeep : forall m1 w1,
                 fine_owner m1 = fine_owner m ->
                 code w1 = (body ++ [i_unlock stats_update_lock])%list ->
                 workers m1 = set_worker i w1 (workers m) ->
                 alone h (code w1) (tmp w1) (fine_shared m1)
                   = alone h (code w) (tmp w) (fine_shared m) ->
                 fine_inv h m1 /\ outcome h m1 = outcome h m).
      { intros m1 w1 Eo Ec1 Ews Ealone. split; [split|].
        - intros j wj Ej. rewrite Ews in Ej.
          destruct (Nat.eq_dec i j) as [<-|Hij].
          + rewrite (nth_error_set_worker_eq _ _ _ _ Ew) in Ej. injection Ej as <-.
            left. rewrite Eo. split; [exact Hin|]. eauto.
          + rewrite nth_error_set_worker_neq in Ej by assumption.
            unfold worker_inv. rewrite Eo. apply (Hw j wj Ej).
        - intros j. rewrite Eo, Ews, length_set_worker. apply Hown.
        - unfold outcome. rewrite Eo, Hin, Ews.
          rewrite (nth_error_set_worker_eq _ _ _ _ Ew), Ew, Ealone.
          apply fresh_effects_set_idle with (w := w).
          + exact Ew.
          + rewrite Ec. now destruct a.
          + rewrite Ec1. now apply accesses_then_unlock. }
      destruct a as [mx|mx|f|f|f]; try discriminate Ha; subst m';
        match goal with
        | |- context [set_worker i ?w1 _] =>
            apply (Hkeep _ w1); [reflexivity | reflexivity | reflexivity |]
        end;
        simpl; rewrite Ec; reflexivity.
  - destruct Hshape as [Hnil | [l Hl]]; [congruence|].
    rewrite Ec in Hl. unfold update_stats_code in Hl. injection Hl as -> ->.
    destruct Hm as [Hfree ->].
    split; [split|].
    + intros j wj Ej. simpl in Ej.
      destruct (Nat.eq_dec i j) as [<-|Hij].
      * rewrite (nth_error_set_worker_eq _ _ _ _ Ew) in Ej. injection Ej as <-.
        left. simpl. split; [reflexivity|].
        eexists. split; [reflexivity | apply update_stats_body_accesses].
      * rewrite nth_error_set_worker_neq in Ej by assumption.
        right. simpl. split; [congruence|].
        destruct (Hw j wj Ej) as [(Hj & _) | (_ & Hsh)]; [congruence | exact Hsh].
    + simpl. intros j [= <-]. now rewrite length_set_worker.
    + unfold outcome. simpl.
      rewrite (nth_error_set_worker_eq _ _ _ _ Ew), Hfree. simpl.
      change (alone h (update_stats_body h l ++ [i_unlock stats_update_lock])
                (tmp w) (fine_shared m))
        with (alone h (update_stats_code h l) (tmp w) (fine_shared m)).
      rewrite alone_update_stats_code.
      symmetry. apply fresh_effects_take with (w := w).
      * exact Ew.
      * exact Ec.
      * simpl. apply accesses_then_unlock, update_stats_body_accesses.
      * intros k wk Ek Hk.
        destruct (Hw k wk Ek) as [(Hj & _) | (_ & [Hnil | Hsh])];
          [congruence | rewrite Hnil in Hk; discriminate | exact Hsh].
Qed.

Lemma fine_run_keeps (schedule : list nat) (m m' : fine_machine) :
  fine_inv h m -> fine_run h schedule m = Some m' ->
  fine_inv h m' /\ outcome h m' = outcome h m.
Proof.
  revert m. induction schedule as [|i schedule IH]; intros m Hinv; simpl.
  - intros [= <-]. auto.
  - destruct (fine_step h m i) as [m1|] eqn:Es; [|discriminate].
    intros Hr. destruct (fine_step_keeps _ _ _ Hinv Es) as [Hinv1 <-].
    now apply IH.
Qed.

Lemma fine_boot_inv (s : stat_s) (levels : list Z) :
  fine_inv h (fine_boot s (map (update_stats_code h) levels)).
Proof.
  split; [|discriminate].
  intros i w Ew. right. split; [discriminate|]. right.
  unfold fine_boot in Ew. simpl in Ew. rewrite map_map, nth_error_map in Ew.
  destruct (nth_error levels i) as [l|]; [|discriminate].
  injection Ew as <-. exists l. reflexivity.
Qed.

Lemma fine_boot_outcome (s : stat_s) (levels : list Z) :
  outcome h (fine_boot s (map (update_stats_code h) levels)) = update_all h levels s.
Proof.
  unfold outcome, fine_boot. simpl. revert s.
  induction levels as [|l levels IH]; intros s; simpl; [reflexivity|].
  change (alone h (update_stats_body h l ++ [i_unlock stats_update_lock]) 0%Z s)
    with (alone h (update_stats_code h l) 0%Z s).
  rewrite alone_update_stats_code. apply IH.
Qed.

(** X16: calls of [update_stats] on any number of threads, interleaved
    access by access in any way the mutex allows: once all have
    returned the store is the one the calls leave when made one after
    the other. *)
Theorem updates_are_atomic (levels : list Z) (s : stat_s)
    (schedule : list nat) (m : fine_machine) :
  fine_run h schedule (fine_boot s (map (update_stats_code h) levels)) = Some m ->
  Forall (fun w => code w = []) (workers m) ->
  fine_shared m = update_all h levels s.
Proof.
  intros Hrun Hdone.
  destruct (fine_run_keeps _ _ _ (fine_boot_inv s levels) Hrun) as [[Hw Hown] Hout].
  rewrite fine_boot_outcome in Hout. rewrite <- Hout.
  unfold outcome.
  destruct (fine_owner m stats_update_lock) as [j|] eqn:Eo.
  - exfalso. pose proof (Hown j eq_refl) as Hj. apply nth_error_Some in Hj.
    destruct (nth_error (workers m) j) as [w|] eqn:Ew; [|congruence].
    destruct (Hw j w Ew) as [(_ & rest & Hrest & _) | (Hn & _)]; [|congruence].
    rewrite Forall_forall in Hdone.
    rewrite (Hdone w (nth_error_In _ _ Ew)) in Hrest.
    now destruct rest.
  - symmetry. apply fresh_effects_idle.
    apply Forall_impl with (2 := Hdone). intros w ->. reflexivity.
Qed.

End FineGrainProofs.

(** ** Instances *)

Lemma update_all_permutation_witness :
  Permutation [STAT_OPEN lp64; STAT_CLOSE lp64; STAT_DENIED lp64]
              [STAT_CLOSE lp64; STAT_OPEN lp64; STAT_DENIED lp64] /\
  update_all lp64 [STAT_OPEN lp64; STAT_CLOSE lp64; STAT_DENIED lp64] stats_buf =
  update_all lp64 [STAT_CLOSE lp64; STAT_OPEN lp64; STAT_DENIED lp64] stats_buf.
Proof.
  assert (Hp : Permutation [STAT_OPEN lp64; STAT_CLOSE lp64; STAT_DENIED lp64]
                           [STAT_CLOSE lp64; STAT_OPEN lp64; STAT_DENIED lp64])
    by apply perm_swap.
  split; [exact Hp|].
  exact (update_all_permutation lp64 _ _ stats_buf Hp).
Defined.

Lemma open_close_round_trip_witness :
  labels_distinct lp64 /\ is_ulong lp64 (num_open stats_buf) /\
  update_all lp64 [STAT_CLOSE lp64; STAT_OPEN lp64] stats_buf =
    {| num_reqs := 1; num_badcons := 0; num_open := 0;
       num_refused := 0; num_denied := 0 |}.
Proof.
  assert (Hd : labels_distinct lp64) by labels_tac.
  assert (Ho : is_ulong lp64 (num_open stats_buf))
    by (unfold is_ulong; simpl; split; (lia || reflexivity)).
  split; [exact Hd|]. split; [exact Ho|].
  exact (proj2 (open_close_round_trip lp64 stats_buf Hd Ho)).
Defined.

Lemma update_all_counts_witness :
  labels_distinct lp64 /\
  num_denied (update_all lp64 [STAT_DENIED lp64; 9; STAT_DENIED lp64] stats_buf) = 2%Z.
Proof.
  assert (Hd : labels_distinct lp64) by labels_tac.
  split; [exact Hd|].
  destruct (update_all_counts lp64 [STAT_DENIED lp64; 9; STAT_DENIED lp64] Hd)
    as (_ & _ & _ & _ & Hden).
  rewrite Hden. reflexivity.
Defined.


Lemma showstats_releases_everything_witness :
  exists ret calls,
    showstats lp64 [("accept", "application/json")] init_stats None stats_buf
      (a_world true true 0 0 0) = Ok (ret, calls) /\
    In (fclose 3%nat) calls /\
    track_all calls nothing_held = Some nothing_held.
Proof.
  eexists _, _. split; [reflexivity|]. split; [simpl; tauto|].
  exact (showstats_releases_everything lp64 [("accept", "application/json")]
           init_stats None stats_buf (a_world true true 0 0 0) _ _ eq_refl).
Defined.

Lemma template_variables_witness :
  select_template [("accept", "text/html")] init_stats None =
    Ok (Some "data/templates/stats.html") /\
  fopen_r (a_world true true 0 0 0) "data/templates/stats.html" = Some 3%nat /\
  counters_below (10 ^ 15)
    {| num_reqs := 120; num_badcons := 3; num_open := 7;
       num_refused := 0; num_denied := 15 |} /\
  exists opens reqs calls,
    showstats lp64 [("accept", "text/html")] init_stats None
      {| num_reqs := 120; num_badcons := 3; num_open := 7;
         num_refused := 0; num_denied := 15 |} (a_world true true 0 0 0) =
      Ok (0%Z, pthread_mutex_lock stats_file_lock
                 :: fopen "data/templates/stats.html" (Some 3%nat)
                 :: add_error_variable "opens" opens
                 :: add_error_variable "reqs" reqs :: calls) /\
    parse_lu opens = Some 7%Z /\ parse_lu reqs = Some 120%Z.
Proof.
  split; [reflexivity|]. split; [reflexivity|].
  assert (Hb : counters_below (10 ^ 15)
                 {| num_reqs := 120; num_badcons := 3; num_open := 7;
                    num_refused := 0; num_denied := 15 |})
    by (unfold counters_below; simpl; repeat split; (lia || reflexivity)).
  split; [exact Hb|].
  destruct (template_variables lp64 [("accept", "text/html")] init_stats None
              {| num_reqs := 120; num_badcons := 3; num_open := 7;
                 num_refused := 0; num_denied := 15 |} (a_world true true 0 0 0)
              "data/templates/stats.html" 3%nat eq_refl eq_refl)
    as (opens & reqs & badconns & denied & refused & Hrun & _ & Hparse).
  destruct (Hparse Hb) as (Hopens & Hreqs & _).
  exists opens, reqs. eexists. split; [exact Hrun|]. split; assumption.
Defined.

Lemma template_variables_narrow_witness :
  (Z.pos (ULONG_BITS ilp32) <= 49)%Z /\
  stats_wf ilp32 {| num_reqs := 4294967295; num_badcons := 0; num_open := 4294967295;
                    num_refused := 0; num_denied := 0 |} /\
  exists calls,
    showstats ilp32 [("accept", "text/html")] init_stats None
      {| num_reqs := 4294967295; num_badcons := 0; num_open := 4294967295;
         num_refused := 0; num_denied := 0 |} (a_world true true 0 0 0) =
      Ok (0%Z, pthread_mutex_lock stats_file_lock
                 :: fopen "data/templates/stats.html" (Some 3%nat)
                 :: add_error_variable "opens" "4294967295" :: calls).
Proof.
  assert (Hw : (Z.pos (ULONG_BITS ilp32) <= 49)%Z) by (simpl; lia).
  assert (Hs : stats_wf ilp32
                 {| num_reqs := 4294967295; num_badcons := 0; num_open := 4294967295;
                    num_refused := 0; num_denied := 0 |})
    by (unfold stats_wf, is_ulong; simpl; repeat split; (lia || reflexivity)).
  split; [exact Hw|]. split; [exact Hs|].
  eexists.
  rewrite (template_variables_narrow ilp32 [("accept", "text/html")] init_stats None
             _ (a_world true true 0 0 0) "data/templates/stats.html" 3%nat
             Hw Hs eq_refl eq_refl).
  reflexivity.
Defined.

Lemma minimal_page_whole_witness :
  (Z.pos (ULONG_BITS lp64) <= 64)%Z /\
  stats_wf lp64 stats_buf /\
  (603 + 3 * Z.of_nat (String.length (PACKAGE lp64) + String.length (VERSION lp64))
     < MAXBUFFSIZE lp64)%Z /\
  safemalloc_r (a_world true true 0 0 0) (MAXBUFFSIZE lp64) = true /\
  snprintf (MAXBUFFSIZE lp64) (minimal_page_text lp64 stats_buf)
    = minimal_page_text lp64 stats_buf.
Proof.
  assert (Hw : (Z.pos (ULONG_BITS lp64) <= 64)%Z) by (simpl; lia).
  assert (Hs : stats_wf lp64 stats_buf)
    by (unfold stats_wf, is_ulong; simpl; repeat split; (lia || reflexivity)).
  assert (Hfit : (603 + 3 * Z.of_nat (String.length (PACKAGE lp64)
                                       + String.length (VERSION lp64))
                  < MAXBUFFSIZE lp64)%Z) by (simpl; lia).
  split; [exact Hw|]. split; [exact Hs|]. split; [exact Hfit|].
  split; [reflexivity|].
  exact (proj1 (minimal_page_whole lp64 stats_buf (a_world true true 0 0 0)
                  Hw Hs Hfit eq_refl)).
Defined.

Lemma message_fits_buffer_witness :
  (0 < MAXBUFFSIZE lp64)%Z /\
  exists ret calls body,
    showstats lp64 [("accept", "text/plain")] init_stats None stats_buf
      (a_world true true 0 0 0) = Ok (ret, calls) /\
    In (send_http_message 200 "OK" body 0) calls /\
    (Z.of_nat (String.length body) < MAXBUFFSIZE lp64)%Z.
Proof.
  assert (Hpos : (0 < MAXBUFFSIZE lp64)%Z) by reflexivity.
  split; [exact Hpos|].
  eexists _, _, _. split; [reflexivity|].
  assert (Hin : In (send_http_message 200 "OK"
                      (snprintf (MAXBUFFSIZE lp64) (minimal_page_text lp64 stats_buf)) 0)
                   [pthread_mutex_lock stats_file_lock;
                    safemalloc (MAXBUFFSIZE lp64) true;
                    send_http_message 200 "OK"
                      (snprintf (MAXBUFFSIZE lp64) (minimal_page_text lp64 stats_buf)) 0;
                    safefree;
                    pthread_mutex_unlock stats_file_lock])
    by (simpl; tauto).
  split; [exact Hin|].
  exact (proj1 (proj2 (message_fits_buffer lp64 [("accept", "text/plain")]
                         init_stats None stats_buf (a_world true true 0 0 0)
                         _ _ _ _ _ _ Hpos eq_refl Hin))).
Defined.

Lemma init_stats_selection_witness :
  orderedmap_find [("accept", "application/json, text/html;q=0.5")] "accept"
    = Some "application/json, text/html;q=0.5" /\
  occurs_in "text/html" "application/json, text/html;q=0.5" /\
  select_template [("accept", "application/json, text/html;q=0.5")] init_stats
    (Some "stats.html") = Ok (Some "data/templates/stats.html").
Proof.
  assert (Ho : occurs_in "text/html" "application/json, text/html;q=0.5")
    by (exists "application/json, ", ";q=0.5"; reflexivity).
  split; [reflexivity|]. split; [exact Ho|].
  exact (proj1 (init_stats_selection
                  [("accept", "application/json, text/html;q=0.5")]
                  "application/json, text/html;q=0.5" (Some "stats.html") eq_refl) Ho).
Defined.

Lemma mutual_exclusion_witness :
  Forall (is_program lp64)
    [update_stats_ops lp64 (STAT_OPEN lp64); showstats_ops true] /\
  exists m ti,
    run lp64 [0; 0; 1]%nat
      (boot stats_buf [update_stats_ops lp64 (STAT_OPEN lp64); showstats_ops true])
      = Some m /\
    nth_error (pool m) 0 = Some ti /\
    disciplined (Some stats_update_lock) (todo ti) = true /\
    0%nat = 0%nat.
Proof.
  assert (Hp : Forall (is_program lp64)
                 [update_stats_ops lp64 (STAT_OPEN lp64); showstats_ops true]).
  { constructor; [left; eexists; reflexivity|].
    constructor; [right; eexists; reflexivity | constructor]. }
  split; [exact Hp|].
  eexists _, _. split; [reflexivity|]. split; [reflexivity|].
  split; [reflexivity|].
  exact (mutual_exclusion lp64 _ stats_buf [0; 0; 1]%nat _ 0%nat 0%nat _ _
           stats_update_lock Hp eq_refl eq_refl eq_refl eq_refl eq_refl).
Defined.

Lemma never_deadlocks_witness :
  Forall (is_program lp64)
    [update_stats_ops lp64 (STAT_OPEN lp64); update_stats_ops lp64 (STAT_CLOSE lp64);
     showstats_ops true] /\
  exists m,
    run lp64 [0; 2; 2]%nat
      (boot stats_buf [update_stats_ops lp64 (STAT_OPEN lp64);
                       update_stats_ops lp64 (STAT_CLOSE lp64);
                       showstats_ops true]) = Some m /\
    exists more m', run lp64 more m = Some m' /\ finished m'.
Proof.
  assert (Hp : Forall (is_program lp64)
                 [update_stats_ops lp64 (STAT_OPEN lp64);
                  update_stats_ops lp64 (STAT_CLOSE lp64); showstats_ops true]).
  { constructor; [left; eexists; reflexivity|].
    constructor; [left; eexists; reflexivity|].
    constructor; [right; eexists; reflexivity | constructor]. }
  split; [exact Hp|].
  eexists. split; [reflexivity|].
  exact (never_deadlocks lp64 _ stats_buf [0; 2; 2]%nat _ Hp eq_refl).
Defined.

Lemma updates_are_atomic_witness :
  exists m,
    fine_run lp64 [1; 1; 1; 1; 1; 1; 0; 0; 0; 0]%nat
      (fine_boot stats_buf
         (map (update_stats_code lp64) [STAT_DENIED lp64; STAT_OPEN lp64])) = Some m /\
    Forall (fun w => code w = []) (workers m) /\
    fine_shared m = {| num_reqs := 1; num_badcons := 0; num_open := 1;
                       num_refused := 0; num_denied := 1 |}.
Proof.
  eexists. split; [reflexivity|].
  assert (Hdone : Forall (fun w => code w = [])
                    [{| code := []; tmp := 0 |}; {| code := []; tmp := 0 |}])
    by (repeat constructor).
  split; [exact Hdone|].
  exact (updates_are_atomic lp64 [STAT_DENIED lp64; STAT_OPEN lp64] stats_buf
           [1; 1; 1; 1; 1; 1; 0; 0; 0; 0]%nat _ eq_refl Hdone).
Defined.

(** Without the mutex an update is lost: two workers that run only the
    body of [STAT_OPEN], each load before the other's store, leave both
    counters at 1. *)
Example lost_update_without_lock :
  exists m,
    fine_run lp64 [0; 1; 0; 1; 0; 1; 0; 1]%nat
      (fine_boot stats_buf [update_stats_body lp64 (STAT_OPEN lp64);
                            update_stats_body lp64 (STAT_OPEN lp64)]) = Some m /\
    Forall (fun w => code w = []) (workers m) /\
    fine_shared m = {| num_reqs := 1; num_badcons := 0; num_open := 1;
                       num_refused := 0; num_denied := 0 |} /\
    update_all lp64 [STAT_OPEN lp64; STAT_OPEN lp64] stats_buf =
      {| num_reqs := 2; num_badcons := 0; num_open := 2;
         num_refused := 0; num_denied := 0 |}.
Proof.
  eexists. split; [reflexivity|]. split; [repeat constructor|].
  split; reflexivity.
Qed.
